(** * DynamicCanvas: element store, grid topology and offset orchestration

    A shallow embedding of the TypeScript classes [GlobalElementManager],
    [CanvasSyncManager], [CanvasGridManager], of the offset fields of
    [CanvasManager] and of the offset pass of [MultiCanvasManager], followed
    by the properties of the specification that concern them.

    Conventions of the embedding:
    - a JS [number] is an integer of [Z] (pixel coordinates, grid indices):
      fractions and NaN are outside the model;
    - a JS [Map] whose iteration order is observable (the element map, whose
      order is the z-order) is an association list in insertion order;
      the maps of the grid and of the orchestrator are [gmap]s;
    - a method that mutates [this] is a function from the old object to the
      new one; a method that also returns a value returns a pair;
    - callbacks are opaque: calling one is recorded in the field [calls] of
      the element manager, with what the callback could observe. *)

From Stdlib Require Import ZArith String Ascii List Bool Lia DecimalString.
From Stdlib Require Import DecimalPos DecimalZ.
From Stdlib Require DecimalFacts.
From stdpp Require Import gmap strings list fin_maps.
Import ListNotations.

Local Open Scope string_scope.
Local Open Scope list_scope.
Local Open Scope Z_scope.

(** ** The pieces of the JavaScript runtime the classes rely on *)

Module Js.

(** Truthiness of a string: only the empty string is falsy. *)
Definition truthy (s : string) : bool :=
  match s with EmptyString => false | String _ _ => true end.

(** [s.includes(search)]: [search] occurs in [s] as a substring. *)
Fixpoint includes (s search : string) : bool :=
  String.prefix search s ||
  match s with
  | EmptyString => false
  | String _ rest => includes rest search
  end.

(** Template-literal conversion of an integer: [`${n}`]. *)
Definition numberToString (n : Z) : string :=
  NilZero.string_of_int (Z.to_int n).

(** [Array.prototype.sort()] with the default comparison, on strings:
    a stable sort by code-unit order. *)
Fixpoint insertSorted (s : string) (sorted : list string) : list string :=
  match sorted with
  | [] => [s]
  | h :: t => if String.ltb s h then s :: h :: t else h :: insertSorted s t
  end.

Definition sort (arr : list string) : list string :=
  fold_left (fun sorted s => insertSorted s sorted) arr [].

(** [arr.join(sep)]. *)
Definition join (sep : string) (arr : list string) : string :=
  String.concat sep arr.

End Js.

(** ** JavaScript [Map<string, V>] and [Set<T>] in insertion order *)

Module JsMap.
Section WithValue.
Context {V : Type}.

Fixpoint get (key : string) (m : list (string * V)) : option V :=
  match m with
  | [] => None
  | (k, v) :: rest => if decide (k = key) then Some v else get key rest
  end.

Definition has (key : string) (m : list (string * V)) : bool :=
  match get key m with Some _ => true | None => false end.

(** [set] keeps the position of a key that is present and appends a new
    key. *)
Fixpoint set (key : string) (value : V) (m : list (string * V))
  : list (string * V) :=
  match m with
  | [] => [(key, value)]
  | (k, v) :: rest =>
      if decide (k = key) then (key, value) :: rest
      else (k, v) :: set key value rest
  end.

Definition delete (key : string) (m : list (string * V))
  : list (string * V) :=
  List.filter (fun '(k, _) => negb (bool_decide (k = key))) m.

Definition values (m : list (string * V)) : list V := map snd m.
Definition keys (m : list (string * V)) : list string := map fst m.
End WithValue.
End JsMap.

Module JsSet.
Section WithElement.
Context {T : Type} `{EqDecision T}.

Definition has (v : T) (s : list T) : bool := bool_decide (v ∈ s).

Definition add (v : T) (s : list T) : list T :=
  if has v s then s else s ++ [v].

Definition delete (v : T) (s : list T) : list T :=
  List.filter (fun w => negb (bool_decide (w = v))) s.
End WithElement.
End JsSet.

(** ** CanvasGridManager *)

Module Grid.

Record GridPosition := { row : Z; col : Z }.

(** The class also declares a map [links], which no method reads or writes;
    it is left out. *)
Record CanvasGridManager := {
  grid : gmap string string;                 (* "row,col" -> canvasId *)
  canvasPositions : gmap string GridPosition; (* canvasId -> position *)
  linkStates : gmap string bool               (* "id1-id2" -> enabled *)
}.

Definition empty : CanvasGridManager :=
  {| grid := ∅; canvasPositions := ∅; linkStates := ∅ |}.

Definition cellKey (row col : Z) : string :=
  (Js.numberToString row ++ "," ++ Js.numberToString col)%string.

(** [[canvas1, canvas2].sort().join('-')] *)
Definition getLinkKey (canvas1 canvas2 : string) : string :=
  Js.join "-" (Js.sort [canvas1; canvas2]).

(** [this.grid.get(key) || null] *)
Definition getCanvasAt (row col : Z) (g : CanvasGridManager) : option string :=
  match grid g !! cellKey row col with
  | Some canvasId => if Js.truthy canvasId then Some canvasId else None
  | None => None
  end.

Definition directions : list (string * Z * Z) :=
  [ ("top", -1, 0); ("top-right", -1, 1); ("right", 0, 1);
    ("bottom-right", 1, 1); ("bottom", 1, 0); ("bottom-left", 1, -1);
    ("left", 0, -1); ("top-left", -1, -1) ].

(** The result map has one key per direction, inserted in the order of
    [directions]: a list of (direction, canvasId). *)
Definition getAdjacentCanvases (canvasId : string) (g : CanvasGridManager)
  : list (string * string) :=
  match canvasPositions g !! canvasId with
  | None => []
  | Some position =>
      fold_left
        (fun adjacent '(dir, dr, dc) =>
           match getCanvasAt (row position + dr) (col position + dc) g with
           | Some adjacentCanvas => adjacent ++ [(dir, adjacentCanvas)]
           | None => adjacent
           end)
        directions []
  end.

Definition createAdjacentLinks (canvasId : string) (row col : Z)
    (g : CanvasGridManager) : CanvasGridManager :=
  let adjacent := getAdjacentCanvases canvasId g in
  fold_left
    (fun g '(direction, adjacentId) =>
       let linkKey := getLinkKey canvasId adjacentId in
       match linkStates g !! linkKey with
       | Some _ => g
       | None =>
           {| grid := grid g;
              canvasPositions := canvasPositions g;
              linkStates := <[linkKey := true]> (linkStates g) |}
       end)
    adjacent g.

Definition addCanvas (canvasId : string) (row col : Z)
    (g : CanvasGridManager) : CanvasGridManager :=
  let key := cellKey row col in
  createAdjacentLinks canvasId row col
    {| grid := <[key := canvasId]> (grid g);
       canvasPositions :=
         <[canvasId := {| row := row; col := col |}]> (canvasPositions g);
       linkStates := linkStates g |}.

(** First pass collects the keys that contain [canvasId], second pass
    deletes them. *)
Definition removeCanvasLinks (canvasId : string) (g : CanvasGridManager)
  : CanvasGridManager :=
  let keysToRemove :=
    List.filter (fun key => Js.includes key canvasId)
                (map fst (map_to_list (linkStates g))) in
  {| grid := grid g;
     canvasPositions := canvasPositions g;
     linkStates :=
       fold_left (fun ls key => delete key ls) keysToRemove (linkStates g) |}.

Definition removeCanvas (canvasId : string) (g : CanvasGridManager)
  : CanvasGridManager :=
  match canvasPositions g !! canvasId with
  | Some position =>
      let key := cellKey (row position) (col position) in
      removeCanvasLinks canvasId
        {| grid := delete key (grid g);
           canvasPositions := delete canvasId (canvasPositions g);
           linkStates := linkStates g |}
  | None => g
  end.

(** [this.linkStates.get(key) || false] *)
Definition linkStateOrFalse (key : string) (g : CanvasGridManager) : bool :=
  match linkStates g !! key with
  | Some enabled => enabled || false
  | None => false
  end.

Definition toggleLink (canvas1 canvas2 : string) (g : CanvasGridManager)
  : bool * CanvasGridManager :=
  let key := getLinkKey canvas1 canvas2 in
  let currentState := linkStateOrFalse key g in
  let newState := negb currentState in
  (newState,
   {| grid := grid g;
      canvasPositions := canvasPositions g;
      linkStates := <[key := newState]> (linkStates g) |}).

Definition setLinkState (canvas1 canvas2 : string) (enabled : bool)
    (g : CanvasGridManager) : CanvasGridManager :=
  let key := getLinkKey canvas1 canvas2 in
  {| grid := grid g;
     canvasPositions := canvasPositions g;
     linkStates := <[key := enabled]> (linkStates g) |}.

Definition areCanvasesLinked (canvas1 canvas2 : string)
    (g : CanvasGridManager) : bool :=
  let key := getLinkKey canvas1 canvas2 in
  linkStateOrFalse key g.

(** [this.canvasPositions.get(canvasId) || null]: a position object is
    always truthy. *)
Definition getCanvasPosition (canvasId : string) (g : CanvasGridManager)
  : option GridPosition :=
  canvasPositions g !! canvasId.

(** [canElementMoveBetweenCanvases] *)
Definition canElementMoveBetweenCanvases (fromCanvas toCanvas : string)
    (g : CanvasGridManager) : bool :=
  match canvasPositions g !! fromCanvas, canvasPositions g !! toCanvas with
  | Some fromPos, Some toPos =>
      let rowDiff := Z.abs (row fromPos - row toPos) in
      let colDiff := Z.abs (col fromPos - col toPos) in
      if (1 <? rowDiff) || (1 <? colDiff) then false
      else areCanvasesLinked fromCanvas toCanvas g
  | _, _ => false
  end.

End Grid.

(** ** CanvasSyncManager *)

Module Sync.

(** A registered callback is opaque; it is identified by a number. *)
Definition Callback := nat.

Record CanvasSyncManager := {
  syncEnabled : bool;
  listeners : list (string * Callback)   (* canvasId -> callback *)
}.

Definition initial : CanvasSyncManager :=
  {| syncEnabled := false; listeners := [] |}.

Definition isSyncEnabled (m : CanvasSyncManager) : bool := syncEnabled m.

Definition registerCanvas (canvasId : string) (updateCallback : Callback)
    (m : CanvasSyncManager) : CanvasSyncManager :=
  {| syncEnabled := syncEnabled m;
     listeners := JsMap.set canvasId updateCallback (listeners m) |}.

Definition unregisterCanvas (canvasId : string) (m : CanvasSyncManager)
  : CanvasSyncManager :=
  {| syncEnabled := syncEnabled m;
     listeners := JsMap.delete canvasId (listeners m) |}.

(** [toggleSync]: the new state, the manager, and the callbacks [notifyAll]
    invokes. *)
Definition toggleSync (m : CanvasSyncManager)
  : bool * CanvasSyncManager * list (string * Callback) :=
  let m' := {| syncEnabled := negb (syncEnabled m);
               listeners := listeners m |} in
  (syncEnabled m', m', listeners m').

(** [notifyCanvasUpdate(sourceCanvasId?)]: the callbacks it invokes, in
    order. *)
Definition notifyCanvasUpdate (sourceCanvasId : option string)
    (m : CanvasSyncManager) : list (string * Callback) :=
  if negb (syncEnabled m) then []
  else
    List.filter
      (fun '(canvasId, _) =>
         match sourceCanvasId with
         | Some source => negb (bool_decide (canvasId = source))
         | None => true
         end)
      (listeners m).

End Sync.

(** ** CanvasElement (types.ts) *)

Module Element.

Inductive ElementType := text | image.
Inductive FontWeight := weightNormal | weightBold.
Inductive FontStyle := styleNormal | styleItalic.
Inductive TextAlign := alignLeft | alignCenter | alignRight.

(** A decoded bitmap, known here by its source only. *)
Record HTMLImageElement := { src : string }.

Record CanvasElement := {
  id : string;
  type : ElementType;
  x : Z;
  y : Z;
  width : Z;
  height : Z;
  content : string;
  fontSize : option Z;
  fontFamily : option string;
  fontWeight : option FontWeight;
  fontStyle : option FontStyle;
  textAlign : option TextAlign;
  color : option string;
  imageElement : option HTMLImageElement;
  rotation : option Z;
  canvasId : option string;
  cropX : option Z;
  cropY : option Z;
  cropWidth : option Z;
  cropHeight : option Z;
  originalWidth : option Z;
  originalHeight : option Z
}.

(** [Partial<CanvasElement>]: [None] is an absent key. For an optional
    field the key may be present with the value [undefined]. *)
Record Updates := {
  u_id : option string;
  u_type : option ElementType;
  u_x : option Z;
  u_y : option Z;
  u_width : option Z;
  u_height : option Z;
  u_content : option string;
  u_fontSize : option (option Z);
  u_fontFamily : option (option string);
  u_fontWeight : option (option FontWeight);
  u_fontStyle : option (option FontStyle);
  u_textAlign : option (option TextAlign);
  u_color : option (option string);
  u_imageElement : option (option HTMLImageElement);
  u_rotation : option (option Z);
  u_canvasId : option (option string);
  u_cropX : option (option Z);
  u_cropY : option (option Z);
  u_cropWidth : option (option Z);
  u_cropHeight : option (option Z);
  u_originalWidth : option (option Z);
  u_originalHeight : option (option Z)
}.

Definition noUpdates : Updates :=
  {| u_id := None; u_type := None; u_x := None; u_y := None;
     u_width := None; u_height := None; u_content := None;
     u_fontSize := None; u_fontFamily := None; u_fontWeight := None;
     u_fontStyle := None; u_textAlign := None; u_color := None;
     u_imageElement := None; u_rotation := None; u_canvasId := None;
     u_cropX := None; u_cropY := None; u_cropWidth := None;
     u_cropHeight := None; u_originalWidth := None;
     u_originalHeight := None |}.

Definition assign {A} (current : A) (update : option A) : A :=
  match update with Some v => v | None => current end.

(** [Object.assign(element, updates)] *)
Definition objectAssign (element : CanvasElement) (updates : Updates)
  : CanvasElement :=
  {| id := assign (id element) (u_id updates);
     type := assign (type element) (u_type updates);
     x := assign (x element) (u_x updates);
     y := assign (y element) (u_y updates);
     width := assign (width element) (u_width updates);
     height := assign (height element) (u_height updates);
     content := assign (content element) (u_content updates);
     fontSize := assign (fontSize element) (u_fontSize updates);
     fontFamily := assign (fontFamily element) (u_fontFamily updates);
     fontWeight := assign (fontWeight element) (u_fontWeight updates);
     fontStyle := assign (fontStyle element) (u_fontStyle updates);
     textAlign := assign (textAlign element) (u_textAlign updates);
     color := assign (color element) (u_color updates);
     imageElement := assign (imageElement element) (u_imageElement updates);
     rotation := assign (rotation element) (u_rotation updates);
     canvasId := assign (canvasId element) (u_canvasId updates);
     cropX := assign (cropX element) (u_cropX updates);
     cropY := assign (cropY element) (u_cropY updates);
     cropWidth := assign (cropWidth element) (u_cropWidth updates);
     cropHeight := assign (cropHeight element) (u_cropHeight updates);
     originalWidth := assign (originalWidth element) (u_originalWidth updates);
     originalHeight :=
       assign (originalHeight element) (u_originalHeight updates) |}.

(** The object literal of [duplicateElement]:
    [{ ...original, id: newId, x: ..., y: ... }], then the bitmap clone. *)
Definition duplicateOf (original : CanvasElement) (newId : string)
    (offsetX offsetY : Z) : CanvasElement :=
  let duplicate :=
    objectAssign original
      {| u_id := Some newId; u_type := None;
         u_x := Some (x original + offsetX);
         u_y := Some (y original + offsetY);
         u_width := None; u_height := None; u_content := None;
         u_fontSize := None; u_fontFamily := None; u_fontWeight := None;
         u_fontStyle := None; u_textAlign := None; u_color := None;
         u_imageElement := None; u_rotation := None; u_canvasId := None;
         u_cropX := None; u_cropY := None; u_cropWidth := None;
         u_cropHeight := None; u_originalWidth := None;
         u_originalHeight := None |} in
  match type duplicate, imageElement original with
  | image, Some originalImage =>
      objectAssign duplicate
        {| u_id := None; u_type := None; u_x := None; u_y := None;
           u_width := None; u_height := None; u_content := None;
           u_fontSize := None; u_fontFamily := None; u_fontWeight := None;
           u_fontStyle := None; u_textAlign := None; u_color := None;
           u_imageElement := Some (Some {| src := src originalImage |});
           u_rotation := None; u_canvasId := None;
           u_cropX := None; u_cropY := None; u_cropWidth := None;
           u_cropHeight := None; u_originalWidth := None;
           u_originalHeight := None |}
  | _, _ => duplicate
  end.

(** A plain text box, for examples. *)
Definition textBox (name : string) (left top w h : Z) : CanvasElement :=
  {| id := name; type := text; x := left; y := top; width := w; height := h;
     content := EmptyString; fontSize := None; fontFamily := None; fontWeight := None;
     fontStyle := None; textAlign := None; color := None;
     imageElement := None; rotation := None; canvasId := None;
     cropX := None; cropY := None; cropWidth := None; cropHeight := None;
     originalWidth := None; originalHeight := None |}.

(** An image with a crop rectangle, for examples. *)
Definition croppedImage (name : string) (left top w h cx cy cw ch : Z)
  : CanvasElement :=
  {| id := name; type := image; x := left; y := top; width := w; height := h;
     content := EmptyString; fontSize := None; fontFamily := None; fontWeight := None;
     fontStyle := None; textAlign := None; color := None;
     imageElement := Some {| src := name |}; rotation := None;
     canvasId := None;
     cropX := Some cx; cropY := Some cy;
     cropWidth := Some cw; cropHeight := Some ch;
     originalWidth := None; originalHeight := None |}.

End Element.

(** ** GlobalElementManager

    The revision with multi-selection and crop-aware hit testing. The two
    earlier revisions of the class are in [Earlier] below, where they
    differ. *)

Module Store.
Import Element.

Definition Callback := Sync.Callback.

(** What a callback can observe of the manager when it is called. *)
Record Snapshot := {
  seenElements : list (string * CanvasElement);
  seenSelectedElementId : option string;
  seenSelectedElementIds : list string
}.

Inductive Event :=
| ListenerCalled (callback : Callback) (seen : Snapshot)
| SyncListenerCalled (canvas : string) (callback : Callback) (seen : Snapshot).

Record GlobalElementManager := {
  elements : list (string * CanvasElement);       (* Map, insertion order *)
  selectedElementId : option string;
  selectedElementIds : list string;               (* Set, insertion order *)
  changeListeners : list Callback;                (* Set, insertion order *)
  windowCanvasSyncManager : option Sync.CanvasSyncManager;
  calls : list Event                              (* oldest first *)
}.

(** The constructor. *)
Definition initial : GlobalElementManager :=
  {| elements := []; selectedElementId := None; selectedElementIds := [];
     changeListeners := []; windowCanvasSyncManager := None; calls := [] |}.

Definition setElements (v : list (string * CanvasElement))
    (s : GlobalElementManager) : GlobalElementManager :=
  {| elements := v; selectedElementId := selectedElementId s;
     selectedElementIds := selectedElementIds s;
     changeListeners := changeListeners s;
     windowCanvasSyncManager := windowCanvasSyncManager s;
     calls := calls s |}.

Definition setSelectedElementId (v : option string)
    (s : GlobalElementManager) : GlobalElementManager :=
  {| elements := elements s; selectedElementId := v;
     selectedElementIds := selectedElementIds s;
     changeListeners := changeListeners s;
     windowCanvasSyncManager := windowCanvasSyncManager s;
     calls := calls s |}.

Definition setSelectedElementIds (v : list string)
    (s : GlobalElementManager) : GlobalElementManager :=
  {| elements := elements s; selectedElementId := selectedElementId s;
     selectedElementIds := v;
     changeListeners := changeListeners s;
     windowCanvasSyncManager := windowCanvasSyncManager s;
     calls := calls s |}.

Definition setChangeListeners (v : list Callback)
    (s : GlobalElementManager) : GlobalElementManager :=
  {| elements := elements s; selectedElementId := selectedElementId s;
     selectedElementIds := selectedElementIds s;
     changeListeners := v;
     windowCanvasSyncManager := windowCanvasSyncManager s;
     calls := calls s |}.

Definition setCalls (v : list Event)
    (s : GlobalElementManager) : GlobalElementManager :=
  {| elements := elements s; selectedElementId := selectedElementId s;
     selectedElementIds := selectedElementIds s;
     changeListeners := changeListeners s;
     windowCanvasSyncManager := windowCanvasSyncManager s;
     calls := v |}.

Definition snapshot (s : GlobalElementManager) : Snapshot :=
  {| seenElements := elements s;
     seenSelectedElementId := selectedElementId s;
     seenSelectedElementIds := selectedElementIds s |}.

(** The callbacks one [notifyChange] invokes: every change listener, then
    the listeners of the sync manager when there is one. *)
Definition notification (s : GlobalElementManager) : list Event :=
  map (fun callback => ListenerCalled callback (snapshot s))
      (changeListeners s)
  ++ match windowCanvasSyncManager s with
     | Some syncManager =>
         map (fun '(canvas, callback) =>
                SyncListenerCalled canvas callback (snapshot s))
             (Sync.notifyCanvasUpdate None syncManager)
     | None => []
     end.

Definition notifyChange (s : GlobalElementManager) : GlobalElementManager :=
  setCalls (calls s ++ notification s) s.

Definition addElement (element : CanvasElement) (s : GlobalElementManager)
  : GlobalElementManager :=
  notifyChange (setElements (JsMap.set (id element) element (elements s)) s).

Definition subscribe (callback : Callback) (s : GlobalElementManager)
  : GlobalElementManager :=
  setChangeListeners (JsSet.add callback (changeListeners s)) s.

Definition unsubscribe (callback : Callback) (s : GlobalElementManager)
  : GlobalElementManager :=
  setChangeListeners (JsSet.delete callback (changeListeners s)) s.

(** [this.selectedElementId === elementId] *)
Definition isSelectedId (elementId : string) (s : GlobalElementManager)
  : bool :=
  match selectedElementId s with
  | Some selected => bool_decide (selected = elementId)
  | None => false
  end.

Definition removeElement (elementId : string) (s : GlobalElementManager)
  : GlobalElementManager :=
  if JsMap.has elementId (elements s) then
    let s1 := setElements (JsMap.delete elementId (elements s)) s in
    let s2 := if isSelectedId elementId s1
              then setSelectedElementId None s1 else s1 in
    notifyChange s2
  else s.

Definition getElement (elementId : string) (s : GlobalElementManager)
  : option CanvasElement :=
  JsMap.get elementId (elements s).

Definition getAllElements (s : GlobalElementManager) : list CanvasElement :=
  JsMap.values (elements s).

(** [Object.assign] mutates the stored object: the entry keeps its key and
    its place. *)
Definition updateElement (elementId : string) (updates : Updates)
    (s : GlobalElementManager) : GlobalElementManager :=
  match JsMap.get elementId (elements s) with
  | Some element =>
      notifyChange
        (setElements
           (JsMap.set elementId (objectAssign element updates) (elements s))
           s)
  | None => s
  end.

Definition intersectsCanvas
    (canvasOffsetX canvasOffsetY canvasWidth canvasHeight : Z)
    (element : CanvasElement) : bool :=
  let elementRight := x element + width element in
  let elementBottom := y element + height element in
  let canvasRight := canvasOffsetX + canvasWidth in
  let canvasBottom := canvasOffsetY + canvasHeight in
  (x element <? canvasRight) && (elementRight >? canvasOffsetX) &&
  (y element <? canvasBottom) && (elementBottom >? canvasOffsetY).

Definition getElementsForCanvas
    (canvasOffsetX canvasOffsetY canvasWidth canvasHeight : Z)
    (s : GlobalElementManager) : list CanvasElement :=
  fold_left
    (fun visibleElements element =>
       if intersectsCanvas canvasOffsetX canvasOffsetY
                           canvasWidth canvasHeight element
       then visibleElements ++ [element] else visibleElements)
    (JsMap.values (elements s)) [].

Definition setSelectedElement (elementId : option string)
    (s : GlobalElementManager) : GlobalElementManager :=
  setSelectedElementId elementId s.

Definition getSelectedElement (s : GlobalElementManager)
  : option CanvasElement :=
  match selectedElementId s with
  | Some selected =>
      if Js.truthy selected then JsMap.get selected (elements s) else None
  | None => None
  end.

Definition addToSelection (elementId : string) (s : GlobalElementManager)
  : GlobalElementManager :=
  notifyChange
    (setSelectedElementIds (JsSet.add elementId (selectedElementIds s)) s).

Definition removeFromSelection (elementId : string)
    (s : GlobalElementManager) : GlobalElementManager :=
  notifyChange
    (setSelectedElementIds (JsSet.delete elementId (selectedElementIds s)) s).

Definition clearSelection (s : GlobalElementManager) : GlobalElementManager :=
  notifyChange (setSelectedElementId None (setSelectedElementIds [] s)).

Definition getSelectedElements (s : GlobalElementManager)
  : list CanvasElement :=
  omap (fun elementId => JsMap.get elementId (elements s))
       (selectedElementIds s).

Definition isSelected (elementId : string) (s : GlobalElementManager)
  : bool :=
  JsSet.has elementId (selectedElementIds s) || isSelectedId elementId s.

Definition intersectsRectangle (rx ry rwidth rheight : Z)
    (element : CanvasElement) : bool :=
  let rectRight := rx + rwidth in
  let rectBottom := ry + rheight in
  let elementRight := x element + width element in
  let elementBottom := y element + height element in
  negb ((x element >? rectRight) || (elementRight <? rx) ||
        (y element >? rectBottom) || (elementBottom <? ry)).

Definition getElementsInRectangle (rx ry rwidth rheight : Z)
    (s : GlobalElementManager) : list CanvasElement :=
  fold_left
    (fun result element =>
       if intersectsRectangle rx ry rwidth rheight element
       then result ++ [element] else result)
    (JsMap.values (elements s)) [].

Definition clearAll (s : GlobalElementManager) : GlobalElementManager :=
  setSelectedElementId None (setElements [] s).

(** [now] is the value of [Date.now()]; the offsets default to 20. *)
Definition duplicateElement (elementId : string)
    (offsetX offsetY : option Z) (now : Z) (s : GlobalElementManager)
  : option CanvasElement * GlobalElementManager :=
  match JsMap.get elementId (elements s) with
  | None => (None, s)
  | Some original =>
      let duplicate :=
        duplicateOf original ("element-" ++ Js.numberToString now)%string
                    (default 20 offsetX) (default 20 offsetY) in
      (Some duplicate, addElement duplicate s)
  end.

(** The test one iteration of the hit-test loop performs. *)
Definition hitBy (globalX globalY : Z) (element : CanvasElement) : bool :=
  match cropX element, cropY element,
        cropWidth element, cropHeight element with
  | Some cx, Some cy, Some cw, Some ch =>
      let cropLeft := x element + cx in
      let cropTop := y element + cy in
      let cropRight := cropLeft + cw in
      let cropBottom := cropTop + ch in
      (globalX >=? cropLeft) && (globalX <=? cropRight) &&
      (globalY >=? cropTop) && (globalY <=? cropBottom)
  | _, _, _, _ =>
      (globalX >=? x element) && (globalX <=? x element + width element) &&
      (globalY >=? y element) && (globalY <=? y element + height element)
  end.

(** [for (let i = n - 1; i >= 0; i--)]: [scanDown test arr n] runs the
    iterations with index below [n], from the highest down. *)
Fixpoint scanDown (test : CanvasElement -> bool)
    (elementsArray : list CanvasElement) (n : nat) : option CanvasElement :=
  match n with
  | O => None
  | S i =>
      match nth_error elementsArray i with
      | Some element =>
          if test element then Some element
          else scanDown test elementsArray i
      | None => scanDown test elementsArray i
      end
  end.

Definition getElementAtPoint (globalX globalY : Z)
    (s : GlobalElementManager) : option CanvasElement :=
  let elementsArray := JsMap.values (elements s) in
  scanDown (hitBy globalX globalY) elementsArray (length elementsArray).

Definition moveElementToFront (elementId : string)
    (s : GlobalElementManager) : GlobalElementManager :=
  match JsMap.get elementId (elements s) with
  | Some element =>
      setElements
        (JsMap.set elementId element (JsMap.delete elementId (elements s))) s
  | None => s
  end.

Definition moveElementToBack (elementId : string)
    (s : GlobalElementManager) : GlobalElementManager :=
  match JsMap.get elementId (elements s) with
  | Some element =>
      let allElements := elements s in
      setElements
        (fold_left
           (fun m '(id, el) =>
              if negb (bool_decide (id = elementId))
              then JsMap.set id el m else m)
           allElements (JsMap.set elementId element []))
        s
  | None => s
  end.

(** *** Calls on the manager, and the states they reach *)

Inductive Call :=
| AddElement (element : CanvasElement)
| Subscribe (callback : Callback)
| Unsubscribe (callback : Callback)
| RemoveElement (elementId : string)
| UpdateElement (elementId : string) (updates : Updates)
| SetSelectedElement (elementId : option string)
| AddToSelection (elementId : string)
| RemoveFromSelection (elementId : string)
| ClearSelection
| ClearAll
| DuplicateElement (elementId : string) (offsetX offsetY : option Z) (now : Z)
| MoveElementToFront (elementId : string)
| MoveElementToBack (elementId : string).

Definition perform (c : Call) (s : GlobalElementManager)
  : GlobalElementManager :=
  match c with
  | AddElement element => addElement element s
  | Subscribe callback => subscribe callback s
  | Unsubscribe callback => unsubscribe callback s
  | RemoveElement elementId => removeElement elementId s
  | UpdateElement elementId updates => updateElement elementId updates s
  | SetSelectedElement elementId => setSelectedElement elementId s
  | AddToSelection elementId => addToSelection elementId s
  | RemoveFromSelection elementId => removeFromSelection elementId s
  | ClearSelection => clearSelection s
  | ClearAll => clearAll s
  | DuplicateElement elementId offsetX offsetY now =>
      snd (duplicateElement elementId offsetX offsetY now s)
  | MoveElementToFront elementId => moveElementToFront elementId s
  | MoveElementToBack elementId => moveElementToBack elementId s
  end.

Definition performAll (cs : list Call) (s : GlobalElementManager)
  : GlobalElementManager :=
  fold_left (fun s c => perform c s) cs s.

(** A state is reachable when a sequence of calls leads to it from the
    freshly constructed manager. *)
Inductive reachable : GlobalElementManager -> Prop :=
| reachable_initial : reachable initial
| reachable_perform c s : reachable s -> reachable (perform c s).

(** The callbacks observed between two states: what [calls] gained. *)
Definition callsSince (before after : GlobalElementManager) : list Event :=
  drop (length (calls before)) (calls after).

Definition isCallTo (callback : Callback) (e : Event) : bool :=
  match e with
  | ListenerCalled c _ => bool_decide (c = callback)
  | SyncListenerCalled _ _ _ => false
  end.

(** Number of change notifications [callback] received between two
    states. *)
Definition notificationsTo (callback : Callback)
    (before after : GlobalElementManager) : nat :=
  length (List.filter (isCallTo callback) (callsSince before after)).

(** *** Change notifications *)

Definition observed (e : Event) : Snapshot :=
  match e with
  | ListenerCalled _ seen => seen
  | SyncListenerCalled _ _ seen => seen
  end.

(** Between [before] and [after], [callback] was notified exactly once, and
    every callback that ran saw the manager as it is in [after]: the
    notification came when the mutation was complete. *)
Definition notifiedOnceAfter (callback : Callback)
    (before after : GlobalElementManager) : Prop :=
  notificationsTo callback before after = 1%nat
  /\ forall e, e ∈ callsSince before after -> observed e = snapshot after.

(** Between [before] and [after] no callback ran. *)
Definition silent (before after : GlobalElementManager) : Prop :=
  callsSince before after = [].

(** *** The two selection fields *)




End Store.

(** ** Earlier revisions of GlobalElementManager, where they differ *)

Module Earlier.
Import Element.
Import Store.

(** The first revision has neither listeners nor multi-selection, and its
    [removeElement] resets the selection whether or not the element
    existed. *)
Definition removeElement (elementId : string) (s : GlobalElementManager)
  : GlobalElementManager :=
  let s1 := setElements (JsMap.delete elementId (elements s)) s in
  if isSelectedId elementId s1 then setSelectedElementId None s1 else s1.

(** Before crop support the hit test looked at the full box only. *)
Definition hitByBox (globalX globalY : Z) (element : CanvasElement) : bool :=
  (globalX >=? x element) && (globalX <=? x element + width element) &&
  (globalY >=? y element) && (globalY <=? y element + height element).

Definition getElementAtPoint (globalX globalY : Z)
    (s : GlobalElementManager) : option CanvasElement :=
  let elementsArray := JsMap.values (elements s) in
  scanDown (hitByBox globalX globalY) elementsArray (length elementsArray).

End Earlier.

(** ** CanvasManager: the global offset of a viewport

    Of the class [CanvasManager] the offset pass uses the two offset fields,
    set by the constructor, and [setOffset], which overwrites them and
    redraws; the redraw leaves the offsets alone. *)

Module Viewport.

Record CanvasManager := { offsetX : Z; offsetY : Z }.

Definition setOffset (newOffsetX newOffsetY : Z) (c : CanvasManager)
  : CanvasManager :=
  {| offsetX := newOffsetX; offsetY := newOffsetY |}.

End Viewport.

(** ** MultiCanvasManager: the offset pass *)

Module Orchestrator.

Record CanvasData := {
  id : string;
  name : string;
  width : Z;
  height : Z;
  offsetX : Z;
  offsetY : Z;
  thumbnail : option string
}.

Record Resolution := { resolutionWidth : Z; resolutionHeight : Z }.

Record MultiCanvasManager := {
  canvases : gmap string Viewport.CanvasManager;
  canvasDataMap : gmap string CanvasData;
  gridManager : Grid.CanvasGridManager;
  currentResolution : Resolution
}.

Definition withOffsets (offsetX offsetY : Z) (canvasData : CanvasData)
  : CanvasData :=
  {| id := id canvasData; name := name canvasData;
     width := width canvasData; height := height canvasData;
     offsetX := offsetX; offsetY := offsetY;
     thumbnail := thumbnail canvasData |}.

(** The body of the [forEach] of [recalculateOffsets], for one entry of
    [canvases]. *)
Definition recalculateOne (canvasId : string) (canvasManager : Viewport.CanvasManager)
    (m : MultiCanvasManager) : MultiCanvasManager :=
  match Grid.getCanvasPosition canvasId (gridManager m) with
  | Some gridPos =>
      let offsetX :=
        Grid.col gridPos * resolutionWidth (currentResolution m) in
      let offsetY :=
        Grid.row gridPos * resolutionHeight (currentResolution m) in
      {| canvases :=
           <[canvasId := Viewport.setOffset offsetX offsetY canvasManager]>
             (canvases m);
         canvasDataMap :=
           match canvasDataMap m !! canvasId with
           | Some canvasData =>
               <[canvasId := withOffsets offsetX offsetY canvasData]>
                 (canvasDataMap m)
           | None => canvasDataMap m
           end;
         gridManager := gridManager m;
         currentResolution := currentResolution m |}
  | None => m
  end.

Definition recalculateOffsets (m : MultiCanvasManager) : MultiCanvasManager :=
  map_fold recalculateOne m (canvases m).

(** The synchronous part of [setResolutionForAll]; the offset pass it
    schedules runs afterwards. *)
Definition setResolutionForAll (w h : Z) (m : MultiCanvasManager)
  : MultiCanvasManager :=
  {| canvases := canvases m;
     canvasDataMap :=
       map_imap
         (fun canvasId canvasData =>
            Some (match canvases m !! canvasId with
                  | Some _ =>
                      {| id := id canvasData; name := name canvasData;
                         width := w; height := h;
                         offsetX := offsetX canvasData;
                         offsetY := offsetY canvasData;
                         thumbnail := thumbnail canvasData |}
                  | None => canvasData
                  end))
         (canvasDataMap m);
     gridManager := gridManager m;
     currentResolution := {| resolutionWidth := w; resolutionHeight := h |} |}.

(** What the pass makes of one controller and of one data record: the
    offset of the viewport's grid cell at the current resolution when the
    grid knows the viewport, no change otherwise. *)
Definition cellOffset (gridPos : Grid.GridPosition) (resolution : Resolution)
  : Z * Z :=
  (Grid.col gridPos * resolutionWidth resolution,
   Grid.row gridPos * resolutionHeight resolution).

Definition placedManager (m : MultiCanvasManager) (canvasId : string)
    (canvasManager : Viewport.CanvasManager) : Viewport.CanvasManager :=
  match Grid.getCanvasPosition canvasId (gridManager m) with
  | Some gridPos =>
      Viewport.setOffset (fst (cellOffset gridPos (currentResolution m)))
                (snd (cellOffset gridPos (currentResolution m))) canvasManager
  | None => canvasManager
  end.

Definition placedData (m : MultiCanvasManager) (canvasId : string)
    (canvasData : CanvasData) : CanvasData :=
  match Grid.getCanvasPosition canvasId (gridManager m) with
  | Some gridPos =>
      withOffsets (fst (cellOffset gridPos (currentResolution m)))
                  (snd (cellOffset gridPos (currentResolution m))) canvasData
  | None => canvasData
  end.

(** The state of the pass after the entries [visited] of [canvases m]. *)
Definition passInvariant (m r : MultiCanvasManager)
    (visited : gmap string Viewport.CanvasManager) : Prop :=
  visited ⊆ canvases m ->
  gridManager r = gridManager m
  /\ currentResolution r = currentResolution m
  /\ (forall canvasId,
        canvases r !! canvasId
        = match visited !! canvasId with
          | Some canvasManager => Some (placedManager m canvasId canvasManager)
          | None => canvases m !! canvasId
          end)
  /\ (forall canvasId,
        canvasDataMap r !! canvasId
        = match visited !! canvasId with
          | Some _ => placedData m canvasId <$> canvasDataMap m !! canvasId
          | None => canvasDataMap m !! canvasId
          end).

End Orchestrator.

(** ** The first revision of the offset pass: one row of viewports

    Before the grid existed, [recalculateOffsets] laid the viewports out in
    one row, in the order of the map [canvases], each at the sum of the
    widths of those before it. *)

Module SingleRow.
Import Orchestrator.

Record MultiCanvasManager := {
  canvases : list (string * Viewport.CanvasManager);     (* Map, insertion order *)
  canvasDataMap : gmap string CanvasData;
  totalWidth : Z;
  currentResolution : Resolution
}.

(** [canvasData?.width || this.currentResolution.width] *)
Definition widthOrDefault (canvasData : option CanvasData)
    (resolution : Resolution) : Z :=
  match canvasData with
  | Some data =>
      if width data =? 0 then resolutionWidth resolution else width data
  | None => resolutionWidth resolution
  end.

Definition recalculateOne (state : Z * MultiCanvasManager)
    (entry : string * Viewport.CanvasManager) : Z * MultiCanvasManager :=
  let '(currentOffset, m) := state in
  let '(canvasId, canvasManager) := entry in
  let canvasData := canvasDataMap m !! canvasId in
  (currentOffset + widthOrDefault canvasData (currentResolution m),
   {| canvases :=
        JsMap.set canvasId (Viewport.setOffset currentOffset 0 canvasManager)
                  (canvases m);
      canvasDataMap :=
        match canvasData with
        | Some data =>
            <[canvasId := withOffsets currentOffset (offsetY data) data]>
              (canvasDataMap m)
        | None => canvasDataMap m
        end;
      totalWidth := totalWidth m;
      currentResolution := currentResolution m |}).

Definition recalculateOffsets (m : MultiCanvasManager) : MultiCanvasManager :=
  let canvasArray := canvases m in
  let '(currentOffset, m') := fold_left recalculateOne canvasArray (0, m) in
  {| canvases := canvases m'; canvasDataMap := canvasDataMap m';
     totalWidth := currentOffset;
     currentResolution := currentResolution m' |}.

End SingleRow.

(** ** The spatial queries as the specification words them *)

Module Spec.
Import Element.

Record Rect := { left : Z; top : Z; right : Z; bottom : Z }.

(** A crop is set when its four fields are all defined. *)
Definition cropRect (e : CanvasElement) : option Rect :=
  match cropX e, cropY e, cropWidth e, cropHeight e with
  | Some cx, Some cy, Some cw, Some ch =>
      Some {| left := cx; top := cy; right := cx + cw; bottom := cy + ch |}
  | _, _, _, _ => None
  end.

Definition fullBox (e : CanvasElement) : Rect :=
  {| left := x e; top := y e;
     right := x e + width e; bottom := y e + height e |}.

Definition translate (dx dy : Z) (r : Rect) : Rect :=
  {| left := dx + left r; top := dy + top r;
     right := dx + right r; bottom := dy + bottom r |}.

(** The crop rectangle translated to global coordinates when a crop is
    set, the full box otherwise. *)
Definition effectiveBounds (e : CanvasElement) : Rect :=
  match cropRect e with
  | Some crop => translate (x e) (y e) crop
  | None => fullBox e
  end.

Definition contains (r : Rect) (px py : Z) : bool :=
  (left r <=? px) && (px <=? right r) && (top r <=? py) && (py <=? bottom r).

(** The last element, in iteration order, whose effective bounds contain
    the point. *)
Definition hitTest_spec (all : list CanvasElement) (px py : Z)
  : option CanvasElement :=
  last (List.filter (fun e => contains (effectiveBounds e) px py) all).

(** The overlap test of the specification, with strict inequalities. *)
Definition overlaps (rect : Rect) (e : CanvasElement) : bool :=
  (x e <? right rect) && (x e + width e >? left rect) &&
  (y e <? bottom rect) && (y e + height e >? top rect).

(** The same test with the inequalities made non-strict: boxes that only
    touch the rectangle pass it. *)
Definition overlapsOrTouches (rect : Rect) (e : CanvasElement) : bool :=
  (x e <=? right rect) && (x e + width e >=? left rect) &&
  (y e <=? bottom rect) && (y e + height e >=? top rect).

Definition rectOf (rx ry rwidth rheight : Z) : Rect :=
  {| left := rx; top := ry; right := rx + rwidth; bottom := ry + rheight |}.

End Spec.

(** ** Sample states used by the examples *)

Module Sample.

(** A store with one subscriber and two overlapping boxes. *)
Definition twoBoxes : Store.GlobalElementManager :=
  Store.addElement (Element.textBox "b" 10 10 40 40)
    (Store.addElement (Element.textBox "a" 0 0 40 40)
       (Store.subscribe 7%nat Store.initial)).


(** Three viewports: one at the origin, two side by side further away. *)
Definition threeCanvases : Grid.CanvasGridManager :=
  Grid.addCanvas "canvas-11" 5 6
    (Grid.addCanvas "canvas-10" 5 5
       (Grid.addCanvas "canvas-1" 0 0 Grid.empty)).

(** Two viewports side by side at 800 x 600, with stale offsets. *)
Definition sideBySide : Orchestrator.MultiCanvasManager :=
  {| Orchestrator.canvases :=
       <["canvas-2" := {| Viewport.offsetX := 0;
                          Viewport.offsetY := 0 |}]>
         (<["canvas-1" := {| Viewport.offsetX := 37;
                             Viewport.offsetY := 5 |}]> ∅);
     Orchestrator.canvasDataMap :=
       <["canvas-2" := {| Orchestrator.id := "canvas-2";
                          Orchestrator.name := "second";
                          Orchestrator.width := 800;
                          Orchestrator.height := 600;
                          Orchestrator.offsetX := 0;
                          Orchestrator.offsetY := 0;
                          Orchestrator.thumbnail := None |}]> ∅;
     Orchestrator.gridManager :=
       Grid.addCanvas "canvas-2" 0 1 (Grid.addCanvas "canvas-1" 0 0 Grid.empty);
     Orchestrator.currentResolution :=
       {| Orchestrator.resolutionWidth := 800;
          Orchestrator.resolutionHeight := 600 |} |}.

(** Three viewports of the single-row revision, with stale offsets. *)
Definition threeInARow : SingleRow.MultiCanvasManager :=
  {| SingleRow.canvases :=
       [ ("canvas-1", {| Viewport.offsetX := 9;
                         Viewport.offsetY := 9 |});
         ("canvas-2", {| Viewport.offsetX := 9;
                         Viewport.offsetY := 9 |});
         ("canvas-3", {| Viewport.offsetX := 9;
                         Viewport.offsetY := 9 |}) ];
     SingleRow.canvasDataMap := ∅;
     SingleRow.totalWidth := 0;
     SingleRow.currentResolution :=
       {| Orchestrator.resolutionWidth := 800;
          Orchestrator.resolutionHeight := 600 |} |}.

End Sample.

(** ** CanvasGridManager: the search for a free cell *)

Module GridSearch.
Import Grid.

(** The union type ['right' | 'bottom']. *)
Inductive Direction := toRight | toBottom.

(** [while (this.getCanvasAt(row, col)) col++], cut off after [fuel] tests
    of the condition; [None] is a cut-off loop. *)
Fixpoint scanRight (fuel : nat) (row col : Z) (g : CanvasGridManager)
  : option GridPosition :=
  match fuel with
  | O => None
  | S fuel' =>
      match getCanvasAt row col g with
      | Some _ => scanRight fuel' row (col + 1) g
      | None => Some {| row := row; col := col |}
      end
  end.

(** [while (this.getCanvasAt(row, col)) row++] *)
Fixpoint scanBelow (fuel : nat) (row col : Z) (g : CanvasGridManager)
  : option GridPosition :=
  match fuel with
  | O => None
  | S fuel' =>
      match getCanvasAt row col g with
      | Some _ => scanBelow fuel' (row + 1) col g
      | None => Some {| row := row; col := col |}
      end
  end.

(** [for (let col = ...; col < 10; col++)] with [n] iterations left. *)
Fixpoint firstFreeInRow (n : nat) (row col : Z) (g : CanvasGridManager)
  : option GridPosition :=
  match n with
  | O => None
  | S n' =>
      match getCanvasAt row col g with
      | None => Some {| row := row; col := col |}
      | Some _ => firstFreeInRow n' row (col + 1) g
      end
  end.

(** [for (let row = ...; row < 10; row++)] with [n] iterations left. *)
Fixpoint firstFreeFromRow (n : nat) (row : Z) (g : CanvasGridManager)
  : option GridPosition :=
  match n with
  | O => None
  | S n' =>
      match firstFreeInRow 10 row 0 g with
      | Some position => Some position
      | None => firstFreeFromRow n' (row + 1) g
      end
  end.

Definition findFirstAvailablePosition (g : CanvasGridManager) : GridPosition :=
  match firstFreeFromRow 10 0 g with
  | Some position => position
  | None => {| row := 0; col := 0 |}
  end.

(** [findNextPosition(direction, relativeToCanvasId?)]; the two [while]
    loops run with [fuel]. *)
Definition findNextPosition (fuel : nat) (direction : Direction)
    (relativeToCanvasId : option string) (g : CanvasGridManager)
  : option GridPosition :=
  let withoutReference :=
    if (size (canvasPositions g) =? 0)%nat
    then Some {| row := 0; col := 0 |}
    else Some (findFirstAvailablePosition g) in
  match relativeToCanvasId with
  | None => withoutReference
  | Some reference =>
      if negb (Js.truthy reference) then withoutReference
      else
        match canvasPositions g !! reference with
        | None => Some (findFirstAvailablePosition g)
        | Some refPosition =>
            match direction with
            | toRight => scanRight fuel (row refPosition) (col refPosition + 1) g
            | toBottom => scanBelow fuel (row refPosition + 1) (col refPosition) g
            end
        end
  end.

(** A text without a comma: what a printed integer is. *)
Fixpoint commaFree (s : string) : bool :=
  match s with
  | EmptyString => true
  | String c rest => negb (Ascii.eqb c ",") && commaFree rest
  end.

Definition occupied (g : CanvasGridManager) (cell : Z * Z) : bool :=
  match getCanvasAt (fst cell) (snd cell) g with
  | Some _ => true
  | None => false
  end.

(** The loop of [createAdjacentLinks] over a list of neighbours. *)
Definition recordLinks (canvasId : string) (adjacent : list (string * string))
    (g : CanvasGridManager) : CanvasGridManager :=
  fold_left
    (fun g '(direction, adjacentId) =>
       let linkKey := getLinkKey canvasId adjacentId in
       match linkStates g !! linkKey with
       | Some _ => g
       | None =>
           {| grid := grid g;
              canvasPositions := canvasPositions g;
              linkStates := <[linkKey := true]> (linkStates g) |}
       end)
    adjacent g.

End GridSearch.

(** ** Helpers for stating properties of the element manager *)

Module StoreFacts.
Import Element.

(** The partial object [{ id, x, y }]. *)
Definition idAndPosition (newId : string) (px py : Z) : Updates :=
  {| u_id := Some newId; u_type := None; u_x := Some px; u_y := Some py;
     u_width := None; u_height := None; u_content := None;
     u_fontSize := None; u_fontFamily := None; u_fontWeight := None;
     u_fontStyle := None; u_textAlign := None; u_color := None;
     u_imageElement := None; u_rotation := None; u_canvasId := None;
     u_cropX := None; u_cropY := None; u_cropWidth := None;
     u_cropHeight := None; u_originalWidth := None;
     u_originalHeight := None |}.

(** The id [duplicateElement] gives the copy it makes at time [now]. *)
Definition duplicateId (now : Z) : string :=
  ("element-" ++ Js.numberToString now)%string.

End StoreFacts.

(** ** CanvasManager: dragging and cropping

    The pointer handlers of [CanvasManager] work on the element object the
    store holds; here the object is passed as [element], and the properties
    assume it is what the store holds under its id. *)

Module Gestures.
Import Element.

Record Point := { px : Z; py : Z }.

(** The partial objects [{ x, y }], [{ cropX, cropY }] and
    [{ cropX, cropY, cropWidth, cropHeight }]. *)
Definition positionUpdate (newX newY : Z) : Updates :=
  {| u_id := None; u_type := None; u_x := Some newX; u_y := Some newY;
     u_width := None; u_height := None; u_content := None;
     u_fontSize := None; u_fontFamily := None; u_fontWeight := None;
     u_fontStyle := None; u_textAlign := None; u_color := None;
     u_imageElement := None; u_rotation := None; u_canvasId := None;
     u_cropX := None; u_cropY := None; u_cropWidth := None;
     u_cropHeight := None; u_originalWidth := None;
     u_originalHeight := None |}.


Definition cropUpdate (newCropX newCropY newCropWidth newCropHeight : Z)
  : Updates :=
  {| u_id := None; u_type := None; u_x := None; u_y := None;
     u_width := None; u_height := None; u_content := None;
     u_fontSize := None; u_fontFamily := None; u_fontWeight := None;
     u_fontStyle := None; u_textAlign := None; u_color := None;
     u_imageElement := None; u_rotation := None; u_canvasId := None;
     u_cropX := Some (Some newCropX); u_cropY := Some (Some newCropY);
     u_cropWidth := Some (Some newCropWidth);
     u_cropHeight := Some (Some newCropHeight);
     u_originalWidth := None; u_originalHeight := None |}.

(** *** The single-element branch of the drag in [handleMouseMove]

    [linkingEnabled] is the answer of [isLinkingEnabled()], [canvasWidth]
    and [canvasHeight] are the size of the drawing surface. The result is
    the store after [updateElement] and the detail of the
    ['element-dragging'] event when one is dispatched. *)
Definition dragSingleElement (linkingEnabled : bool)
    (viewport : Viewport.CanvasManager) (canvasWidth canvasHeight : Z)
    (startPoint elementStartPoint currentGlobalPoint : Point)
    (element : CanvasElement) (s : Store.GlobalElementManager)
  : Store.GlobalElementManager * option (string * Z * Z) :=
  let dx := px currentGlobalPoint - px startPoint in
  let dy := py currentGlobalPoint - py startPoint in
  let newX := px elementStartPoint + dx in
  let newY := py elementStartPoint + dy in
  let minVisible := 50 in
  let newX :=
    if negb linkingEnabled
    then Z.max (Viewport.offsetX viewport - width element + minVisible)
               (Z.min newX (Viewport.offsetX viewport + canvasWidth - minVisible))
    else newX in
  let newY :=
    if negb linkingEnabled
    then Z.max (Viewport.offsetY viewport - height element + minVisible)
               (Z.min newY (Viewport.offsetY viewport + canvasHeight - minVisible))
    else newY in
  (Store.updateElement (id element) (positionUpdate newX newY) s,
   if linkingEnabled then Some (id element, newX, newY) else None).



(** The [switch] of [handleCropResize] on the handle: the crop rectangle
    (x, y, width, height) moved by (dx, dy) at that handle. *)
Definition resizedCrop (handle : string) (dx dy : Z) (crop : Z * Z * Z * Z)
  : Z * Z * Z * Z :=
  let '(cx, cy, cw, ch) := crop in
  if decide (handle = "nw") then (cx + dx, cy + dy, cw - dx, ch - dy)
  else if decide (handle = "n") then (cx, cy + dy, cw, ch - dy)
  else if decide (handle = "ne") then (cx, cy + dy, cw + dx, ch - dy)
  else if decide (handle = "e") then (cx, cy, cw + dx, ch)
  else if decide (handle = "se") then (cx, cy, cw + dx, ch + dy)
  else if decide (handle = "s") then (cx, cy, cw, ch + dy)
  else if decide (handle = "sw") then (cx + dx, cy, cw - dx, ch + dy)
  else if decide (handle = "w") then (cx + dx, cy, cw - dx, ch)
  else (cx, cy, cw, ch).

(** *** [handleCropResize]: the store and [cropStartPoint] afterwards *)
Definition handleCropResize (currentPoint : Point) (element : CanvasElement)
    (cropStartPoint : Point) (cropResizeHandle : string)
    (s : Store.GlobalElementManager) : Store.GlobalElementManager * Point :=
  match cropX element, cropY element,
        cropWidth element, cropHeight element with
  | Some elementCropX, Some elementCropY,
    Some elementCropWidth, Some elementCropHeight =>
      let dx := px currentPoint - px cropStartPoint in
      let dy := py currentPoint - py cropStartPoint in
      let '(newCropX, newCropY, newCropWidth, newCropHeight) :=
        resizedCrop cropResizeHandle dx dy
          (elementCropX, elementCropY, elementCropWidth, elementCropHeight) in
      let minSize := 20 in
      let '(newCropX, newCropWidth) :=
        if newCropWidth <? minSize
        then (if Js.includes cropResizeHandle "w"
              then elementCropX + elementCropWidth - minSize else newCropX,
              minSize)
        else (newCropX, newCropWidth) in
      let '(newCropY, newCropHeight) :=
        if newCropHeight <? minSize
        then (if Js.includes cropResizeHandle "n"
              then elementCropY + elementCropHeight - minSize else newCropY,
              minSize)
        else (newCropY, newCropHeight) in
      let newCropX := Z.max 0 newCropX in
      let newCropY := Z.max 0 newCropY in
      let newCropWidth := Z.min newCropWidth (width element - newCropX) in
      let newCropHeight := Z.min newCropHeight (height element - newCropY) in
      (Store.updateElement (id element)
         (cropUpdate newCropX newCropY newCropWidth newCropHeight) s,
       currentPoint)
  | _, _, _, _ => (s, cropStartPoint)
  end.

(** [v] is [wanted] brought into the interval from [lo] to [hi]. *)
Definition clampedTo (lo hi wanted v : Z) : Prop :=
  lo <= v <= hi
  /\ (lo <= wanted <= hi -> v = wanted)
  /\ (wanted <= lo -> v = lo)
  /\ (hi <= wanted -> v = hi).


End Gestures.

(** ** The layout of the single-row revision, as a function *)

Module RowLayout.
Import Orchestrator SingleRow.

(** The width the pass adds for a viewport. *)
Definition widthOf (m : MultiCanvasManager) (canvasId : string) : Z :=
  widthOrDefault (canvasDataMap m !! canvasId) (currentResolution m).

(** The controllers laid out from [offset] on, each on the row 0 at the
    sum of the widths of those before it. *)
Fixpoint placeInRow (widthOf : string -> Z) (offset : Z)
    (entries : list (string * Viewport.CanvasManager))
  : list (string * Viewport.CanvasManager) :=
  match entries with
  | [] => []
  | (canvasId, canvasManager) :: rest =>
      (canvasId, Viewport.setOffset offset 0 canvasManager)
      :: placeInRow widthOf (offset + widthOf canvasId) rest
  end.

(** Where the row ends. *)
Fixpoint rowEnd (widthOf : string -> Z) (offset : Z)
    (entries : list (string * Viewport.CanvasManager)) : Z :=
  match entries with
  | [] => offset
  | (canvasId, _) :: rest => rowEnd widthOf (offset + widthOf canvasId) rest
  end.

(** The offset of one viewport of the row. *)
Fixpoint offsetInRow (widthOf : string -> Z) (offset : Z)
    (entries : list (string * Viewport.CanvasManager)) (canvasId : string)
  : option Z :=
  match entries with
  | [] => None
  | (entryId, _) :: rest =>
      if decide (entryId = canvasId) then Some offset
      else offsetInRow widthOf (offset + widthOf entryId) rest canvasId
  end.

(** The data record of a viewport after the pass. *)
Definition placedDataInRow (m : MultiCanvasManager)
    (entries : list (string * Viewport.CanvasManager)) (canvasId : string)
  : option CanvasData :=
  match offsetInRow (widthOf m) 0 entries canvasId with
  | Some offset =>
      (fun data => withOffsets offset (offsetY data) data)
        <$> canvasDataMap m !! canvasId
  | None => canvasDataMap m !! canvasId
  end.

(** The state of the pass once the entries [done] are behind it. *)
Definition rowInvariant (m : MultiCanvasManager)
    (done rest : list (string * Viewport.CanvasManager))
    (state : Z * MultiCanvasManager) : Prop :=
  state.1 = rowEnd (widthOf m) 0 done
  /\ canvases state.2 = placeInRow (widthOf m) 0 done ++ rest
  /\ totalWidth state.2 = totalWidth m
  /\ currentResolution state.2 = currentResolution m
  /\ forall canvasId,
       canvasDataMap state.2 !! canvasId = placedDataInRow m done canvasId.

End RowLayout.

(** ** MultiCanvasManager: deleting a viewport

    [deleteCanvas] on the fields modelled in [Orchestrator]: [confirmed] is
    the answer of the confirmation dialog; the removal of the page elements
    and the choice of a new active viewport touch none of these fields, and
    the offset pass the method schedules runs afterwards. *)

Module Lifecycle.
Import Orchestrator.

Definition deleteCanvas (canvasId : string) (confirmed : bool)
    (m : MultiCanvasManager) : MultiCanvasManager :=
  if (size (canvases m) <=? 1)%nat then m
  else if confirmed then
    {| canvases := delete canvasId (canvases m);
       canvasDataMap := delete canvasId (canvasDataMap m);
       gridManager := Grid.removeCanvas canvasId (gridManager m);
       currentResolution := currentResolution m |}
  else m.

End Lifecycle.

(** ** MultiCanvasManager: the ids of the viewports

    [addCanvas] of the orchestrator names every viewport
    [`canvas-${Date.now()}`]; it is the only caller of the grid's
    [addCanvas], so these are the ids the grid holds. *)

Module CanvasIds.

(** The id of a viewport created when [Date.now()] is [now]. *)
Definition newCanvasId (now : Z) : string :=
  ("canvas-" ++ Js.numberToString now)%string.

(** The values of [Date.now()] from 9 September 2001 to 20 November 2286:
    the milliseconds since 1970 that have thirteen digits. *)
Definition clockValue (now : Z) : Prop :=
  1000000000000 <= now < 10000000000000.

(** An id that [addCanvas] makes. *)
Definition generatedId (canvasId : string) : Prop :=
  exists now, clockValue now /\ canvasId = newCanvasId now.

(** A text of decimal digits. *)
Fixpoint digitsOnly (s : string) : bool :=
  match s with
  | EmptyString => true
  | String c rest =>
      (48 <=? Z.of_nat (nat_of_ascii c)) && (Z.of_nat (nat_of_ascii c) <=? 57)
      && digitsOnly rest
  end.

(** Three viewports in a row, created one millisecond apart. *)
Definition threeCreated : Grid.CanvasGridManager :=
  Grid.addCanvas (newCanvasId 1700000000002) 5 6
    (Grid.addCanvas (newCanvasId 1700000000001) 5 5
       (Grid.addCanvas (newCanvasId 1700000000000) 5 4 Grid.empty)).

End CanvasIds.

(** * Properties *)

(** ** Helper lemmas on the runtime models *)

Section JsMapFacts.
Context {V : Type}.
Implicit Types (m : list (string * V)) (k : string).

Lemma get_delete_same m k : JsMap.get k (JsMap.delete k m) = None.
Proof.
  induction m as [|[k' v] m IH]; simpl; [done|].
  case_bool_decide; simpl; [done|].
  destruct (decide (k' = k)); [done|]. exact IH.
Qed.

Lemma delete_absent m k : JsMap.get k m = None -> JsMap.delete k m = m.
Proof.
  induction m as [|[k' v] m IH]; simpl; [done|].
  destruct (decide (k' = k)) as [->|Hne]; [done|].
  intros H. rewrite bool_decide_eq_false_2 by done. simpl.
  by rewrite IH.
Qed.

Lemma has_absent m k : JsMap.get k m = None -> JsMap.has k m = false.
Proof. unfold JsMap.has. by intros ->. Qed.

Lemma get_in_values m k v : JsMap.get k m = Some v -> In v (JsMap.values m).
Proof.
  induction m as [|[k' v'] m IH]; simpl; [done|].
  destruct (decide (k' = k)).
  - intros [= ->]. by left.
  - intros H. right. by apply IH.
Qed.
End JsMapFacts.

Section ListFacts.
Context {A : Type}.
Implicit Types (l : list A) (test : A -> bool).

(** A [forEach] that pushes the accepted items is a filter. *)
Lemma forEach_push_filter test l acc :
  fold_left (fun result a => if test a then result ++ [a] else result) l acc
  = acc ++ List.filter test l.
Proof.
  revert acc. induction l as [|a l IH]; intros acc; simpl.
  - by rewrite app_nil_r.
  - rewrite IH. destruct (test a); [|done].
    by rewrite <- app_assoc.
Qed.

Lemma filter_snoc test l a :
  List.filter test (l ++ [a])
  = List.filter test l ++ (if test a then [a] else []).
Proof.
  induction l as [|b l IH]; simpl; [done|].
  rewrite IH. by destruct (test b).
Qed.
End ListFacts.

Section HitTest.
Import Element Store.

Lemma scanDown_app test (l l' : list CanvasElement) (n : nat) :
  (n <= length l)%nat ->
  scanDown test (l ++ l') n = scanDown test l n.
Proof.
  induction n as [|i IH]; intros Hn; simpl; [done|].
  rewrite nth_error_app1 by lia.
  rewrite IH by lia. done.
Qed.

Lemma scanDown_last test (l : list CanvasElement) :
  scanDown test l (length l) = last (List.filter test l).
Proof.
  induction l as [|a l IH] using rev_ind; [done|].
  rewrite length_app, Nat.add_1_r. simpl.
  rewrite nth_error_app2 by lia. rewrite Nat.sub_diag. simpl.
  rewrite filter_snoc. destruct (test a).
  - by rewrite last_snoc.
  - rewrite app_nil_r, scanDown_app by lia. exact IH.
Qed.

Lemma hitBy_effectiveBounds px py e :
  hitBy px py e = Spec.contains (Spec.effectiveBounds e) px py.
Proof.
  unfold hitBy, Spec.contains, Spec.effectiveBounds, Spec.cropRect.
  destruct (cropX e), (cropY e), (cropWidth e), (cropHeight e); simpl;
    rewrite ?Z.geb_leb, ?Z.add_assoc; reflexivity.
Qed.

Lemma last_filter_None {A} (test : A -> bool) (l : list A) :
  last (List.filter test l) = None <-> forall a, In a l -> test a = false.
Proof.
  rewrite last_None. split.
  - intros H a Ha. destruct (test a) eqn:E; [|done].
    assert (In a (List.filter test l)) as Hin by (apply filter_In; done).
    rewrite H in Hin. destruct Hin.
  - intros H. induction l as [|a l IH]; simpl; [done|].
    rewrite (H a) by (by left). apply IH. intros b Hb. apply H. by right.
Qed.
End HitTest.

(** C2. For every point, [getElementAtPoint] returns the last element in
    iteration order whose effective bounds contain the point (the crop
    rectangle translated to global coordinates when a crop is set, the full
    box otherwise) and returns nothing exactly when no element's effective
    bounds contain the point. *)
Theorem getElementAtPoint_is_topmost_hit :
  forall (s : Store.GlobalElementManager) (px py : Z),
    Store.getElementAtPoint px py s
    = Spec.hitTest_spec (Store.getAllElements s) px py
    /\ (Store.getElementAtPoint px py s = None <->
        forall e, In e (Store.getAllElements s) ->
                  Spec.contains (Spec.effectiveBounds e) px py = false).
Proof.
  intros s px py.
  assert (Store.getElementAtPoint px py s
          = Spec.hitTest_spec (Store.getAllElements s) px py) as Heq.
  { unfold Store.getElementAtPoint, Spec.hitTest_spec, Store.getAllElements.
    rewrite scanDown_last. f_equal.
    apply filter_ext. intros e. apply hitBy_effectiveBounds. }
  split; [exact Heq|].
  rewrite Heq. unfold Spec.hitTest_spec. apply last_filter_None.
Qed.

(** ** Rectangle queries *)

Section Overlap.
Import Element Store.

Lemma intersectsCanvas_overlaps ox oy w h e :
  intersectsCanvas ox oy w h e = Spec.overlaps (Spec.rectOf ox oy w h) e.
Proof. reflexivity. Qed.

Lemma intersectsRectangle_touches rx ry w h e :
  intersectsRectangle rx ry w h e
  = Spec.overlapsOrTouches (Spec.rectOf rx ry w h) e.
Proof.
  unfold intersectsRectangle, Spec.overlapsOrTouches, Spec.rectOf; simpl.
  rewrite !negb_orb, !Z.gtb_ltb, !Z.geb_leb, !Z.leb_antisym, !Z.ltb_antisym.
  by rewrite !negb_involutive.
Qed.

Lemma overlaps_touches rect e :
  Spec.overlaps rect e = true -> Spec.overlapsOrTouches rect e = true.
Proof.
  unfold Spec.overlaps, Spec.overlapsOrTouches.
  rewrite !andb_true_iff. lia.
Qed.
End Overlap.

(** C3, as stated, fails for [getElementsInRectangle]: a box whose left
    edge lies on the right edge of the rectangle does not satisfy the strict
    test, yet it is returned. *)
Lemma getElementsInRectangle_returns_touching_box :
  let e := Element.textBox "t" 100 0 50 50 in
  let s := Store.addElement e Store.initial in
  Spec.overlaps (Spec.rectOf 0 0 100 100) e = false
  /\ Store.getElementsInRectangle 0 0 100 100 s = [e]
  /\ Store.getElementsInRectangle 0 0 100 100 s
     <> List.filter (Spec.overlaps (Spec.rectOf 0 0 100 100))
                    (Store.getAllElements s).
Proof. vm_compute. repeat split; discriminate. Qed.

(** C3, amended. [getElementsForCanvas] returns exactly the elements that
    pass the strict overlap test against the rectangle, in iteration order;
    [getElementsInRectangle] returns exactly the elements that pass the
    non-strict test, so it returns every element the strict test accepts
    and also those that only touch the rectangle. *)
Theorem rectangle_queries_are_filters :
  forall (s : Store.GlobalElementManager) (rx ry w h : Z),
    Store.getElementsForCanvas rx ry w h s
    = List.filter (Spec.overlaps (Spec.rectOf rx ry w h))
                  (Store.getAllElements s)
    /\ Store.getElementsInRectangle rx ry w h s
       = List.filter (Spec.overlapsOrTouches (Spec.rectOf rx ry w h))
                     (Store.getAllElements s)
    /\ (forall e, In e (Store.getElementsForCanvas rx ry w h s) ->
                  In e (Store.getElementsInRectangle rx ry w h s)).
Proof.
  intros s rx ry w h.
  assert (Store.getElementsForCanvas rx ry w h s
          = List.filter (Spec.overlaps (Spec.rectOf rx ry w h))
                        (Store.getAllElements s)) as H1.
  { unfold Store.getElementsForCanvas. rewrite forEach_push_filter. simpl.
    apply filter_ext. intros e. apply intersectsCanvas_overlaps. }
  assert (Store.getElementsInRectangle rx ry w h s
          = List.filter (Spec.overlapsOrTouches (Spec.rectOf rx ry w h))
                        (Store.getAllElements s)) as H2.
  { unfold Store.getElementsInRectangle. rewrite forEach_push_filter. simpl.
    apply filter_ext. intros e. apply intersectsRectangle_touches. }
  split; [exact H1|]. split; [exact H2|].
  intros e. rewrite H1, H2, !filter_In.
  intros [Hin Ho]. split; [exact Hin|]. by apply overlaps_touches.
Qed.

(** ** Calls on an id the store does not hold *)

(** C5. For an id that is not in the store ([getElement] answers "not
    found"), [removeElement], [updateElement], [moveElementToFront] and
    [moveElementToBack] return the manager unchanged (elements, selection,
    listeners and the record of callbacks alike), and [duplicateElement]
    answers "not found" and leaves the manager unchanged. The functions are
    total: there is no exceptional outcome. *)
Theorem unknown_id_is_ignored
    (s : Store.GlobalElementManager) (elementId : string)
    (Habsent : Store.getElement elementId s = None) :
  Store.removeElement elementId s = s
  /\ (forall updates, Store.updateElement elementId updates s = s)
  /\ Store.moveElementToFront elementId s = s
  /\ Store.moveElementToBack elementId s = s
  /\ (forall offsetX offsetY now,
        Store.duplicateElement elementId offsetX offsetY now s = (None, s)).
Proof.
  unfold Store.getElement in Habsent.
  unfold Store.removeElement, Store.updateElement, Store.moveElementToFront,
    Store.moveElementToBack, Store.duplicateElement.
  rewrite (has_absent _ _ Habsent), Habsent. repeat split.
Qed.

(** C5 on a store that holds "a" and is asked about "ghost". *)
Lemma unknown_id_is_ignored_witness :
  let s := Store.subscribe 1%nat
             (Store.addElement (Element.textBox "a" 0 0 40 40) Store.initial) in
  Store.removeElement "ghost" s = s
  /\ (forall updates, Store.updateElement "ghost" updates s = s)
  /\ Store.moveElementToFront "ghost" s = s
  /\ Store.moveElementToBack "ghost" s = s
  /\ (forall offsetX offsetY now,
        Store.duplicateElement "ghost" offsetX offsetY now s = (None, s)).
Proof.
  apply (unknown_id_is_ignored
           (Store.subscribe 1%nat
              (Store.addElement (Element.textBox "a" 0 0 40 40) Store.initial))
           "ghost").
  reflexivity.
Defined.

(** ** The primary selection *)

Section PrimarySelection.
Import Store.

Lemma getSelectedElement_notifyChange s :
  getSelectedElement (notifyChange s) = getSelectedElement s.
Proof. reflexivity. Qed.

Lemma getSelectedElement_unselected s :
  selectedElementId s = None -> getSelectedElement s = None.
Proof. unfold getSelectedElement. by intros ->. Qed.

Lemma getSelectedElement_missing s selected :
  selectedElementId s = Some selected ->
  JsMap.get selected (elements s) = None ->
  getSelectedElement s = None.
Proof.
  unfold getSelectedElement. intros -> ->. by destruct (Js.truthy selected).
Qed.
End PrimarySelection.

(** C10. [getSelectedElement] returns either nothing or an element that is
    in the store; and once [removeElement] was called on the primary
    selected id it returns nothing, in the current revision and in the first
    one. *)
Theorem getSelectedElement_is_stored :
  forall s : Store.GlobalElementManager,
    (Store.getSelectedElement s = None
     \/ exists e, Store.getSelectedElement s = Some e
                  /\ In e (Store.getAllElements s))
    /\ (forall elementId,
          Store.selectedElementId s = Some elementId ->
          Store.getSelectedElement (Store.removeElement elementId s) = None
          /\ Store.getSelectedElement (Earlier.removeElement elementId s)
             = None).
Proof.
  intros s. split.
  - destruct (Store.getSelectedElement s) as [e|] eqn:E; [right|by left].
    exists e. split; [done|].
    unfold Store.getSelectedElement in E.
    destruct (Store.selectedElementId s) as [selected|]; [|done].
    destruct (Js.truthy selected); [|done].
    eapply get_in_values, E.
  - intros elementId Hsel. split.
    + unfold Store.removeElement, JsMap.has.
      destruct (JsMap.get elementId (Store.elements s)) as [e|] eqn:E.
      * unfold Store.isSelectedId. simpl. rewrite Hsel.
        rewrite bool_decide_eq_true_2 by done.
        rewrite getSelectedElement_notifyChange.
        by apply getSelectedElement_unselected.
      * by apply (getSelectedElement_missing s elementId).
    + unfold Earlier.removeElement, Store.isSelectedId. simpl. rewrite Hsel.
      rewrite bool_decide_eq_true_2 by done.
      by apply getSelectedElement_unselected.
Qed.

(** The two parts of C10 on the sample store with "a" selected. *)
Lemma getSelectedElement_is_stored_witness :
  let s := Store.setSelectedElement (Some "a") Sample.twoBoxes in
  Store.selectedElementId s = Some "a"
  /\ Store.getSelectedElement s = Some (Element.textBox "a" 0 0 40 40)
  /\ Store.getSelectedElement (Store.removeElement "a" s) = None
  /\ Store.getSelectedElement (Earlier.removeElement "a" s) = None.
Proof.
  split; [reflexivity|]. split; [reflexivity|].
  exact (proj2 (getSelectedElement_is_stored
                  (Store.setSelectedElement (Some "a") Sample.twoBoxes))
               "a" eq_refl).
Defined.

(** The first revision of [removeElement] differs from the later ones on an
    id that is selected and not stored: it resets the selection. *)
Example first_revision_resets_dangling_selection :
  let s := Store.setSelectedElement (Some "ghost") Store.initial in
  Store.getElement "ghost" s = None
  /\ Store.removeElement "ghost" s = s
  /\ Store.selectedElementId (Earlier.removeElement "ghost" s) = None.
Proof. vm_compute. repeat split. Qed.

(** ** Change notifications *)

Section Notifications.
Import Store.

Lemma listed_once (l : list Callback) (callback : Callback) :
  NoDup l -> callback ∈ l ->
  length (List.filter (fun c => bool_decide (c = callback)) l) = 1%nat.
Proof.
  intros Hnd. induction Hnd as [|d rest Hnotin Hnd IH]; intros Hin.
  - by apply elem_of_nil in Hin.
  - simpl. case_bool_decide as Hc.
    + subst d. simpl. f_equal.
      clear IH Hin Hnd. induction rest as [|d rest IHl]; simpl; [done|].
      apply not_elem_of_cons in Hnotin as [Hne Hnotin].
      rewrite bool_decide_eq_false_2 by done. by apply IHl.
    + apply elem_of_cons in Hin as [->|Hin]; [done|]. by apply IH.
Qed.

Lemma calls_to_in_notification s callback :
  List.filter (isCallTo callback) (notification s)
  = map (fun c => ListenerCalled c (snapshot s))
        (List.filter (fun c => bool_decide (c = callback)) (changeListeners s)).
Proof.
  unfold notification. rewrite List.filter_app.
  match goal with |- _ ++ ?r = _ => assert (r = []) as -> end.
  { destruct (windowCanvasSyncManager s) as [m|]; [|done].
    induction (Sync.notifyCanvasUpdate None m) as [|[c k] l IH]; [done|].
    exact IH. }
  rewrite app_nil_r.
  induction (changeListeners s) as [|c l IH]; simpl; [done|].
  destruct (bool_decide (c = callback)); simpl; by rewrite IH.
Qed.

Lemma observed_in_notification s e :
  e ∈ notification s -> observed e = snapshot s.
Proof.
  unfold notification. rewrite elem_of_app.
  intros [H|H].
  - apply list_elem_of_fmap in H as [listener [-> _]]. done.
  - destruct (windowCanvasSyncManager s); [|by apply elem_of_nil in H].
    apply list_elem_of_fmap in H as [[canvas listener] [-> _]]. done.
Qed.

Lemma callsSince_notifyChange s s2 :
  calls s2 = calls s -> callsSince s (notifyChange s2) = notification s2.
Proof.
  intros H. unfold callsSince, notifyChange. simpl.
  rewrite H. apply drop_app_length.
Qed.

Lemma callsSince_same_calls s s2 : calls s2 = calls s -> silent s s2.
Proof.
  intros H. unfold silent, callsSince. rewrite H. apply drop_all.
Qed.

(** One [notifyChange] after a mutation that left the listeners alone. *)
Lemma notifyChange_once s s2 callback :
  calls s2 = calls s -> changeListeners s2 = changeListeners s ->
  NoDup (changeListeners s) -> callback ∈ changeListeners s ->
  notifiedOnceAfter callback s (notifyChange s2).
Proof.
  intros Hcalls Hlisteners Hnd Hin. split.
  - unfold notificationsTo. rewrite callsSince_notifyChange by done.
    rewrite calls_to_in_notification, length_map, Hlisteners.
    by apply listed_once.
  - intros e. rewrite callsSince_notifyChange by done. intros He.
    change (snapshot (notifyChange s2)) with (snapshot s2).
    by apply observed_in_notification.
Qed.
End Notifications.

(** C1, as stated, fails: bringing an element to the front, selecting an
    element and clearing the store change the manager, and the subscriber
    is not called. *)
Lemma reorder_and_select_do_not_notify :
  let s := Store.addElement (Element.textBox "b" 10 10 40 40)
             (Store.addElement (Element.textBox "a" 0 0 40 40)
                (Store.subscribe 7%nat Store.initial)) in
  7%nat ∈ Store.changeListeners s
  /\ Store.moveElementToFront "a" s <> s
  /\ Store.notificationsTo 7%nat s (Store.moveElementToFront "a" s) = 0%nat
  /\ Store.setSelectedElement (Some "a") s <> s
  /\ Store.notificationsTo 7%nat s (Store.setSelectedElement (Some "a") s)
     = 0%nat
  /\ Store.clearAll s <> s
  /\ Store.notificationsTo 7%nat s (Store.clearAll s) = 0%nat.
Proof.
  simpl. split; [apply list_elem_of_here|].
  repeat split; try reflexivity; discriminate.
Qed.

(** C1, amended. With the change listeners forming a set, [addElement],
    [removeElement] and [updateElement] of an id that is present,
    [duplicateElement] of an id that is present, [addToSelection],
    [removeFromSelection] and [clearSelection] call every subscriber exactly
    once, after the mutation; [setSelectedElement], [moveElementToFront],
    [moveElementToBack] and [clearAll] call nobody. *)
Theorem change_notifications_per_call
    (s : Store.GlobalElementManager) (callback : Store.Callback)
    (Hset : NoDup (Store.changeListeners s))
    (Hsubscribed : callback ∈ Store.changeListeners s) :
  (forall element,
      Store.notifiedOnceAfter callback s (Store.addElement element s))
  /\ (forall elementId,
        is_Some (Store.getElement elementId s) ->
        Store.notifiedOnceAfter callback s (Store.removeElement elementId s))
  /\ (forall elementId updates,
        is_Some (Store.getElement elementId s) ->
        Store.notifiedOnceAfter callback s
          (Store.updateElement elementId updates s))
  /\ (forall elementId offsetX offsetY now,
        is_Some (Store.getElement elementId s) ->
        Store.notifiedOnceAfter callback s
          (snd (Store.duplicateElement elementId offsetX offsetY now s)))
  /\ (forall elementId,
        Store.notifiedOnceAfter callback s (Store.addToSelection elementId s))
  /\ (forall elementId,
        Store.notifiedOnceAfter callback s
          (Store.removeFromSelection elementId s))
  /\ Store.notifiedOnceAfter callback s (Store.clearSelection s)
  /\ (forall elementId,
        Store.silent s (Store.setSelectedElement elementId s))
  /\ (forall elementId, Store.silent s (Store.moveElementToFront elementId s))
  /\ (forall elementId, Store.silent s (Store.moveElementToBack elementId s))
  /\ Store.silent s (Store.clearAll s).
Proof.
  repeat match goal with |- _ /\ _ => split end; intros.
  all: unfold Store.getElement in *.
  all: try match goal with
           | H : is_Some _ |- _ => destruct H as [found Hfound]
           end.
  - by apply notifyChange_once.
  - unfold Store.removeElement, JsMap.has. rewrite Hfound.
    apply notifyChange_once; try done; by destruct (Store.isSelectedId _ _).
  - unfold Store.updateElement. rewrite Hfound. by apply notifyChange_once.
  - unfold Store.duplicateElement. rewrite Hfound. by apply notifyChange_once.
  - by apply notifyChange_once.
  - by apply notifyChange_once.
  - by apply notifyChange_once.
  - by apply callsSince_same_calls.
  - apply callsSince_same_calls. unfold Store.moveElementToFront.
    by destruct (JsMap.get _ _).
  - apply callsSince_same_calls. unfold Store.moveElementToBack.
    by destruct (JsMap.get _ _).
  - by apply callsSince_same_calls.
Qed.

(** C1, amended, on the sample store and its subscriber 7. *)
Lemma change_notifications_per_call_witness :
  NoDup (Store.changeListeners Sample.twoBoxes)
  /\ 7%nat ∈ Store.changeListeners Sample.twoBoxes
  /\ Store.notifiedOnceAfter 7%nat Sample.twoBoxes
       (Store.removeElement "a" Sample.twoBoxes)
  /\ Store.notifiedOnceAfter 7%nat Sample.twoBoxes
       (Store.clearSelection Sample.twoBoxes)
  /\ Store.silent Sample.twoBoxes (Store.moveElementToFront "a" Sample.twoBoxes).
Proof.
  assert (NoDup (Store.changeListeners Sample.twoBoxes)) as Hset.
  { simpl. apply NoDup_singleton. }
  assert (7%nat ∈ Store.changeListeners Sample.twoBoxes) as Hsubscribed.
  { simpl. apply list_elem_of_here. }
  pose proof (change_notifications_per_call Sample.twoBoxes 7%nat
                Hset Hsubscribed)
    as (_ & Hremove & _ & _ & _ & _ & Hclear & _ & Hfront & _).
  split; [exact Hset|]. split; [exact Hsubscribed|].
  split; [apply Hremove; simpl; eauto|].
  split; [exact Hclear|apply Hfront].
Defined.

(** ** The two selection fields *)

Section SelectionSets.
Context {T : Type} `{EqDecision T}.
Implicit Types (s : list T) (v w : T).

Lemma elem_of_JsSet_add s v w : w ∈ JsSet.add v s <-> w = v \/ w ∈ s.
Proof.
  unfold JsSet.add, JsSet.has. case_bool_decide as Hv.
  - split; [by right|]. intros [->|H]; done.
  - rewrite elem_of_app, list_elem_of_singleton. tauto.
Qed.

Lemma elem_of_JsSet_delete s v w : w ∈ JsSet.delete v s <-> w ∈ s /\ w <> v.
Proof.
  unfold JsSet.delete. rewrite !list_elem_of_In, filter_In.
  rewrite negb_true_iff, bool_decide_eq_false. tauto.
Qed.

End SelectionSets.

Section SelectionFields.
Import Store.

Lemma selection_notifyChange s :
  selectedElementId (notifyChange s) = selectedElementId s
  /\ selectedElementIds (notifyChange s) = selectedElementIds s.
Proof. done. Qed.



End SelectionFields.




(** ** Links between viewports *)

Section Links.
Import Grid.

Lemma areCanvasesLinked_toggleLink g a b c d :
  areCanvasesLinked c d (snd (toggleLink a b g))
  = if decide (getLinkKey a b = getLinkKey c d)
    then negb (areCanvasesLinked a b g)
    else areCanvasesLinked c d g.
Proof.
  unfold areCanvasesLinked, toggleLink, linkStateOrFalse. simpl.
  destruct (decide (getLinkKey a b = getLinkKey c d)) as [<-|Hne].
  - rewrite lookup_insert_eq. apply orb_false_r.
  - by rewrite lookup_insert_ne.
Qed.

Lemma lookup_delete_all (keys : list string) (ls : gmap string bool) k :
  fold_left (fun ls key => delete key ls) keys ls !! k
  = if bool_decide (k ∈ keys) then None else ls !! k.
Proof.
  revert ls. induction keys as [|key keys IH]; intros ls; simpl; [done|].
  rewrite IH. destruct (decide (k = key)) as [->|Hne].
  - rewrite lookup_delete_eq.
    rewrite (bool_decide_eq_true_2 (key ∈ key :: keys)) by apply list_elem_of_here.
    by case_bool_decide.
  - rewrite lookup_delete_ne by done.
    rewrite (bool_decide_ext (k ∈ key :: keys) (k ∈ keys)); [done|].
    rewrite elem_of_cons. split; [by intros [?|?]|by right].
Qed.

(** What the two passes of [removeCanvasLinks] leave: the entries whose key
    does not contain the id as a substring. *)
Lemma removeCanvasLinks_lookup canvasId g k :
  linkStates (removeCanvasLinks canvasId g) !! k
  = if Js.includes k canvasId then None else linkStates g !! k.
Proof.
  unfold removeCanvasLinks. simpl. rewrite lookup_delete_all.
  destruct (Js.includes k canvasId) eqn:Hinc.
  - case_bool_decide as Hk; [done|].
    destruct (linkStates g !! k) as [enabled|] eqn:E; [|done].
    exfalso. apply Hk. apply list_elem_of_In, filter_In. split; [|done].
    apply list_elem_of_In, list_elem_of_fmap. exists (k, enabled).
    split; [done|]. by apply elem_of_map_to_list.
  - rewrite bool_decide_eq_false_2; [done|].
    rewrite list_elem_of_In, filter_In. intros [_ H]. congruence.
Qed.

(** [removeCanvas] of a placed viewport deletes its position and its cell,
    and deletes the link entries whose key contains its id. *)
Lemma removeCanvas_effect canvasId position g :
  getCanvasPosition canvasId g = Some position ->
  getCanvasPosition canvasId (removeCanvas canvasId g) = None
  /\ getCanvasAt (row position) (col position) (removeCanvas canvasId g) = None
  /\ forall k,
       linkStates (removeCanvas canvasId g) !! k
       = if Js.includes k canvasId then None else linkStates g !! k.
Proof.
  unfold getCanvasPosition, removeCanvas. intros ->. split; [|split].
  - simpl. apply lookup_delete_eq.
  - unfold getCanvasAt. simpl. by rewrite lookup_delete_eq.
  - intros k. by rewrite removeCanvasLinks_lookup.
Qed.
End Links.

(** C4, as stated, fails: the two viewports "canvas-1" and "canvas-10" are
    placed, no link entry is recorded for the pair, and
    [areCanvasesLinked] answers false. *)
Lemma unrecorded_pair_reads_unlinked :
  Grid.linkStates Sample.threeCanvases !! Grid.getLinkKey "canvas-1" "canvas-10"
  = None
  /\ Grid.areCanvasesLinked "canvas-1" "canvas-10" Sample.threeCanvases = false.
Proof. vm_compute. split; reflexivity. Qed.

(** C4, amended. For every pair of viewport ids with no recorded link entry
    [areCanvasesLinked] returns false. *)
Theorem unrecorded_pair_is_unlinked
    (g : Grid.CanvasGridManager) (a b : string)
    (Hunrecorded : Grid.linkStates g !! Grid.getLinkKey a b = None) :
  Grid.areCanvasesLinked a b g = false.
Proof.
  unfold Grid.areCanvasesLinked, Grid.linkStateOrFalse.
  by rewrite Hunrecorded.
Qed.

(** C4, amended, on the empty grid. *)
Lemma unrecorded_pair_is_unlinked_witness :
  Grid.linkStates Grid.empty !! Grid.getLinkKey "left" "right" = None
  /\ Grid.areCanvasesLinked "left" "right" Grid.empty = false.
Proof.
  split; [reflexivity|].
  apply (unrecorded_pair_is_unlinked Grid.empty "left" "right").
  reflexivity.
Defined.

(** The default of a new link: placing a viewport next to another records
    the pair as linked. *)
Example adjacent_pair_is_recorded_linked :
  Grid.linkStates Sample.threeCanvases !! Grid.getLinkKey "canvas-11" "canvas-10"
  = Some true
  /\ Grid.areCanvasesLinked "canvas-11" "canvas-10" Sample.threeCanvases = true.
Proof. vm_compute. split; reflexivity. Qed.

(** [removeCanvasLinks] selects the entries by a substring test, so the
    form of the ids matters: on ids of different lengths, which the
    orchestrator never makes, removing "canvas-1" deletes the link entry of
    the pair ("canvas-10", "canvas-11"), because the key
    "canvas-10-canvas-11" contains "canvas-1". *)
Example removeCanvas_deletes_unrelated_link :
  let g := Sample.threeCanvases in
  "canvas-10" <> "canvas-1" /\ "canvas-11" <> "canvas-1"
  /\ Grid.getCanvasPosition "canvas-1" g = Some {| Grid.row := 0; Grid.col := 0 |}
  /\ Grid.linkStates g !! Grid.getLinkKey "canvas-10" "canvas-11" = Some true
  /\ Grid.linkStates (Grid.removeCanvas "canvas-1" g)
       !! Grid.getLinkKey "canvas-10" "canvas-11" = None
  /\ Grid.areCanvasesLinked "canvas-10" "canvas-11" g = true
  /\ Grid.areCanvasesLinked "canvas-10" "canvas-11"
       (Grid.removeCanvas "canvas-1" g) = false.
Proof. vm_compute. repeat split; (reflexivity || discriminate). Qed.

(** C8. [toggleLink] returns the new state of the pair, which is what
    [areCanvasesLinked] answers afterwards and the negation of what it
    answered before; a second [toggleLink] of the same pair restores what
    [areCanvasesLinked] answers, for this pair and for every other. *)
Theorem toggleLink_flips_and_returns :
  forall (g : Grid.CanvasGridManager) (a b : string),
    let toggled := Grid.toggleLink a b g in
    Grid.areCanvasesLinked a b (snd toggled) = fst toggled
    /\ fst toggled = negb (Grid.areCanvasesLinked a b g)
    /\ forall c d,
         Grid.areCanvasesLinked c d (snd (Grid.toggleLink a b (snd toggled)))
         = Grid.areCanvasesLinked c d g.
Proof.
  intros g a b toggled. subst toggled. split; [|split].
  - rewrite areCanvasesLinked_toggleLink. by rewrite decide_True.
  - reflexivity.
  - intros c d. rewrite !areCanvasesLinked_toggleLink.
    destruct (decide (Grid.getLinkKey a b = Grid.getLinkKey c d)) as [Heq|Hne].
    + rewrite decide_True by done. rewrite negb_involutive.
      unfold Grid.areCanvasesLinked. by rewrite Heq.
    + reflexivity.
Qed.

(** ** The offset pass *)

Section OffsetPass.
Import Orchestrator.

Lemma manager_eq (m1 m2 : MultiCanvasManager) :
  canvases m1 = canvases m2 -> canvasDataMap m1 = canvasDataMap m2 ->
  gridManager m1 = gridManager m2 ->
  currentResolution m1 = currentResolution m2 -> m1 = m2.
Proof. destruct m1, m2; simpl; congruence. Qed.

Lemma passInvariant_step m r visited canvasId canvasManager :
  visited !! canvasId = None ->
  passInvariant m r visited ->
  passInvariant m (recalculateOne canvasId canvasManager r)
                (<[canvasId := canvasManager]> visited).
Proof.
  intros Hfresh IH Hsub.
  assert (visited ⊆ canvases m) as Hsub'.
  { etrans; [|exact Hsub]. by apply insert_subseteq. }
  assert (canvases m !! canvasId = Some canvasManager) as Hhere.
  { eapply lookup_weaken; [|exact Hsub]. apply lookup_insert_eq. }
  destruct (IH Hsub') as (Hgrid & Hres & Hcanvases & Hdata).
  unfold recalculateOne. rewrite Hgrid, Hres.
  destruct (Grid.getCanvasPosition canvasId (gridManager m)) as [gridPos|] eqn:Hpos;
    simpl.
  - repeat split; try done.
    + intros other. destruct (decide (canvasId = other)) as [<-|Hne].
      * rewrite !lookup_insert_eq. unfold placedManager. by rewrite Hpos.
      * rewrite !lookup_insert_ne by done. apply Hcanvases.
    + intros other. specialize (Hdata other).
      destruct (decide (canvasId = other)) as [<-|Hne].
      * rewrite lookup_insert_eq. rewrite Hfresh in Hdata.
        unfold placedData. rewrite Hpos.
        destruct (canvasDataMap r !! canvasId) as [canvasData|] eqn:E;
          rewrite <- Hdata; [by rewrite lookup_insert_eq|by rewrite E].
      * rewrite (lookup_insert_ne visited) by done. rewrite <- Hdata.
        destruct (canvasDataMap r !! canvasId); [|done].
        by rewrite lookup_insert_ne.
  - repeat split; try done.
    + intros other. destruct (decide (canvasId = other)) as [<-|Hne].
      * rewrite lookup_insert_eq, Hcanvases, Hfresh, Hhere.
        unfold placedManager. by rewrite Hpos.
      * rewrite lookup_insert_ne by done. apply Hcanvases.
    + intros other. specialize (Hdata other).
      destruct (decide (canvasId = other)) as [<-|Hne].
      * rewrite lookup_insert_eq, Hdata, Hfresh.
        unfold placedData. rewrite Hpos.
        by destruct (canvasDataMap m !! canvasId).
      * by rewrite lookup_insert_ne.
Qed.

(** The pass as a whole: every controller and every data record of a
    viewport in [canvases] is placed; grid and resolution are untouched. *)
Lemma recalculateOffsets_effect m :
  gridManager (recalculateOffsets m) = gridManager m
  /\ currentResolution (recalculateOffsets m) = currentResolution m
  /\ (forall canvasId,
        canvases (recalculateOffsets m) !! canvasId
        = placedManager m canvasId <$> canvases m !! canvasId)
  /\ (forall canvasId,
        canvasDataMap (recalculateOffsets m) !! canvasId
        = match canvases m !! canvasId with
          | Some _ => placedData m canvasId <$> canvasDataMap m !! canvasId
          | None => canvasDataMap m !! canvasId
          end).
Proof.
  assert (passInvariant m (recalculateOffsets m) (canvases m)) as H.
  { unfold recalculateOffsets.
    apply (map_fold_weak_ind (passInvariant m)).
    - intros _. repeat split; intros canvasId; by rewrite lookup_empty.
    - intros canvasId canvasManager visited r Hfresh IH.
      by apply passInvariant_step. }
  destruct (H (reflexivity _)) as (Hgrid & Hres & Hcanvases & Hdata).
  repeat split; try done.
  intros canvasId. rewrite Hcanvases. by destruct (canvases m !! canvasId).
Qed.

Lemma placedManager_idem m m' canvasId canvasManager :
  gridManager m' = gridManager m -> currentResolution m' = currentResolution m ->
  placedManager m' canvasId (placedManager m canvasId canvasManager)
  = placedManager m canvasId canvasManager.
Proof.
  intros Hgrid Hres. unfold placedManager. rewrite Hgrid, Hres.
  by destruct (Grid.getCanvasPosition canvasId (gridManager m)).
Qed.

Lemma placedData_idem m m' canvasId canvasData :
  gridManager m' = gridManager m -> currentResolution m' = currentResolution m ->
  placedData m' canvasId (placedData m canvasId canvasData)
  = placedData m canvasId canvasData.
Proof.
  intros Hgrid Hres. unfold placedData. rewrite Hgrid, Hres.
  by destruct (Grid.getCanvasPosition canvasId (gridManager m)).
Qed.

Lemma recalculateOffsets_idempotent m :
  recalculateOffsets (recalculateOffsets m) = recalculateOffsets m.
Proof.
  destruct (recalculateOffsets_effect m) as (Hgrid & Hres & Hcanvases & Hdata).
  destruct (recalculateOffsets_effect (recalculateOffsets m))
    as (Hgrid2 & Hres2 & Hcanvases2 & Hdata2).
  apply manager_eq; try done.
  - apply map_eq. intros canvasId.
    rewrite Hcanvases2, Hcanvases.
    destruct (canvases m !! canvasId); simpl; [|done].
    by rewrite placedManager_idem.
  - apply map_eq. intros canvasId.
    rewrite Hdata2, Hcanvases, Hdata.
    destruct (canvases m !! canvasId); simpl; [|done].
    destruct (canvasDataMap m !! canvasId); simpl; [|done].
    by rewrite placedData_idem.
Qed.
End OffsetPass.

(** C6. After [recalculateOffsets], the controller of every viewport that
    has a grid cell carries the offset (col * width, row * height) of that
    cell at the current shared resolution, and so does the viewport's data
    record when it has one; the pass changes neither the grid nor the
    resolution, and running it a second time changes nothing. *)
Theorem recalculateOffsets_places_viewports
    (m : Orchestrator.MultiCanvasManager) (canvasId : string)
    (canvasManager : Viewport.CanvasManager) (gridPos : Grid.GridPosition)
    (Hviewport : Orchestrator.canvases m !! canvasId = Some canvasManager)
    (Hcell : Grid.getCanvasPosition canvasId (Orchestrator.gridManager m)
             = Some gridPos) :
  let m' := Orchestrator.recalculateOffsets m in
  let resolution := Orchestrator.currentResolution m' in
  (exists placed,
      Orchestrator.canvases m' !! canvasId = Some placed
      /\ Viewport.offsetX placed
         = Grid.col gridPos * Orchestrator.resolutionWidth resolution
      /\ Viewport.offsetY placed
         = Grid.row gridPos * Orchestrator.resolutionHeight resolution)
  /\ (forall canvasData,
        Orchestrator.canvasDataMap m !! canvasId = Some canvasData ->
        exists placed,
          Orchestrator.canvasDataMap m' !! canvasId = Some placed
          /\ Orchestrator.offsetX placed
             = Grid.col gridPos * Orchestrator.resolutionWidth resolution
          /\ Orchestrator.offsetY placed
             = Grid.row gridPos * Orchestrator.resolutionHeight resolution)
  /\ Orchestrator.gridManager m' = Orchestrator.gridManager m
  /\ resolution = Orchestrator.currentResolution m
  /\ Orchestrator.recalculateOffsets m' = m'.
Proof.
  intros m' resolution. subst m' resolution.
  destruct (recalculateOffsets_effect m) as (Hgrid & Hres & Hcanvases & Hdata).
  rewrite Hres. repeat split; try done.
  - exists (Orchestrator.placedManager m canvasId canvasManager).
    rewrite Hcanvases, Hviewport.
    unfold Orchestrator.placedManager. by rewrite Hcell.
  - intros canvasData HcanvasData.
    exists (Orchestrator.placedData m canvasId canvasData).
    rewrite Hdata, Hviewport, HcanvasData.
    unfold Orchestrator.placedData. by rewrite Hcell.
  - apply recalculateOffsets_idempotent.
Qed.

(** C6 on two viewports side by side at 800 x 600: the second one, in the
    cell (0, 1), is placed at (800, 0). *)
Lemma recalculateOffsets_places_viewports_witness :
  let m := Sample.sideBySide in
  let m' := Orchestrator.recalculateOffsets m in
  Orchestrator.canvases m !! "canvas-2"
  = Some {| Viewport.offsetX := 0; Viewport.offsetY := 0 |}
  /\ Grid.getCanvasPosition "canvas-2" (Orchestrator.gridManager m)
     = Some {| Grid.row := 0; Grid.col := 1 |}
  /\ (exists placed,
        Orchestrator.canvases m' !! "canvas-2" = Some placed
        /\ Viewport.offsetX placed = 1 * 800
        /\ Viewport.offsetY placed = 0 * 600)
  /\ Orchestrator.recalculateOffsets m' = m'.
Proof.
  assert (Orchestrator.canvases Sample.sideBySide !! "canvas-2"
          = Some {| Viewport.offsetX := 0;
                    Viewport.offsetY := 0 |}) as Hviewport
    by (vm_compute; reflexivity).
  assert (Grid.getCanvasPosition "canvas-2"
            (Orchestrator.gridManager Sample.sideBySide)
          = Some {| Grid.row := 0; Grid.col := 1 |}) as Hcell
    by (vm_compute; reflexivity).
  destruct (recalculateOffsets_places_viewports Sample.sideBySide "canvas-2"
              _ _ Hviewport Hcell) as (Hplaced & _ & _ & Hres & Hidem).
  split; [exact Hviewport|]. split; [exact Hcell|].
  split; [|exact Hidem].
  rewrite Hres in Hplaced. exact Hplaced.
Defined.

(** The pass on two viewports side by side at 800 x 600. *)
Example recalculateOffsets_side_by_side :
  let m' := Orchestrator.recalculateOffsets Sample.sideBySide in
  Orchestrator.canvases m' !! "canvas-1"
  = Some {| Viewport.offsetX := 0; Viewport.offsetY := 0 |}
  /\ Orchestrator.canvases m' !! "canvas-2"
     = Some {| Viewport.offsetX := 800;
               Viewport.offsetY := 0 |}
  /\ (Orchestrator.offsetX <$> Orchestrator.canvasDataMap m' !! "canvas-2")
     = Some 800.
Proof. vm_compute. repeat split. Qed.

(** The single-row revision puts the i-th viewport at i times the width,
    on the row 0, and a second pass changes nothing. *)
Example single_row_offsets :
  let m' := SingleRow.recalculateOffsets Sample.threeInARow in
  map (fun entry => (Viewport.offsetX (snd entry),
                     Viewport.offsetY (snd entry)))
      (SingleRow.canvases m')
  = [(0, 0); (800, 0); (1600, 0)]
  /\ SingleRow.totalWidth m' = 2400
  /\ SingleRow.recalculateOffsets m' = m'.
Proof. vm_compute. repeat split. Qed.

(** ** Further facts: z-order and the unordered link key *)

Section ZOrder.
Import Element Store.

Lemma set_after_delete {V} (m : list (string * V)) k v :
  JsMap.set k v (JsMap.delete k m) = JsMap.delete k m ++ [(k, v)].
Proof.
  induction m as [|[k' v'] m IH]; simpl; [done|].
  case_bool_decide as Hk; simpl; [done|].
  destruct (decide (k' = k)); [done|]. by rewrite IH.
Qed.

(** After [moveElementToFront] the element is the last in iteration order,
    so a point it covers hits it whatever else lies there. *)
Lemma hit_after_moveElementToFront s elementId element px py :
  getElement elementId s = Some element ->
  hitBy px py element = true ->
  getElementAtPoint px py (moveElementToFront elementId s) = Some element.
Proof.
  unfold getElement, getElementAtPoint, moveElementToFront.
  intros -> Hhit. simpl. rewrite scanDown_last, set_after_delete.
  unfold JsMap.values. rewrite map_app. simpl. rewrite filter_snoc, Hhit.
  apply last_snoc.
Qed.

Example hit_test_follows_z_order :
  getElementAtPoint 20 20 Sample.twoBoxes
  = Some (Element.textBox "b" 10 10 40 40)
  /\ getElementAtPoint 20 20 (moveElementToFront "a" Sample.twoBoxes)
     = Some (Element.textBox "a" 0 0 40 40)
  /\ getElementAtPoint 20 20 (moveElementToBack "b" Sample.twoBoxes)
     = Some (Element.textBox "a" 0 0 40 40)
  /\ getElementAtPoint 200 200 Sample.twoBoxes = None.
Proof. vm_compute. repeat split. Qed.

(** A point inside the box and outside the crop rectangle misses a cropped
    image; the revision without crop support hits it. *)
Example hit_test_uses_crop :
  let s := addElement (Element.croppedImage "i" 0 0 100 100 50 50 30 30)
                      initial in
  getElementAtPoint 10 10 s = None
  /\ getElementAtPoint 60 60 s
     = Some (Element.croppedImage "i" 0 0 100 100 50 50 30 30)
  /\ Earlier.getElementAtPoint 10 10 s
     = Some (Element.croppedImage "i" 0 0 100 100 50 50 30 30).
Proof. vm_compute. repeat split. Qed.

(** On elements without a crop the two revisions of the hit test agree. *)
Lemma hitBy_without_crop px py e :
  Spec.cropRect e = None -> hitBy px py e = Earlier.hitByBox px py e.
Proof.
  unfold Spec.cropRect, hitBy, Earlier.hitByBox.
  by destruct (cropX e), (cropY e), (cropWidth e), (cropHeight e).
Qed.
End ZOrder.

Section LinkKey.
Import Grid.

Lemma getLinkKey_sym a b : getLinkKey a b = getLinkKey b a.
Proof.
  unfold getLinkKey, Js.sort. simpl. unfold String.ltb.
  rewrite (String.compare_antisym a b).
  destruct (String.compare b a) eqn:E; simpl; try reflexivity.
  apply String.compare_eq_iff in E. by subst.
Qed.

(** The link of a pair does not depend on the order of the two ids. *)
Lemma areCanvasesLinked_sym a b g :
  areCanvasesLinked a b g = areCanvasesLinked b a g.
Proof. unfold areCanvasesLinked. by rewrite getLinkKey_sym. Qed.
End LinkKey.

(** ** The list models stay maps and sets *)

Section WellFormed.
Import Store.

Lemma keys_set {V} (m : list (string * V)) k v k' :
  k' ∈ JsMap.keys (JsMap.set k v m) <-> k' = k \/ k' ∈ JsMap.keys m.
Proof.
  induction m as [|[k0 v0] m IH]; simpl.
  - rewrite list_elem_of_singleton, elem_of_nil. tauto.
  - destruct (decide (k0 = k)) as [->|Hne]; simpl;
      rewrite !elem_of_cons; [tauto|]. rewrite IH. tauto.
Qed.

(** [set] keeps the keys of the map distinct. *)
Lemma NoDup_keys_set {V} (m : list (string * V)) k v :
  NoDup (JsMap.keys m) -> NoDup (JsMap.keys (JsMap.set k v m)).
Proof.
  induction m as [|[k0 v0] m IH]; simpl; intros Hnd.
  - apply NoDup_singleton.
  - apply NoDup_cons in Hnd as [Hnotin Hnd].
    destruct (decide (k0 = k)) as [->|Hne]; simpl; apply NoDup_cons.
    + done.
    + split; [|by apply IH].
      rewrite keys_set. intros [?|?]; done.
Qed.

Lemma NoDup_JsSet_add {T} `{EqDecision T} (s : list T) v :
  NoDup s -> NoDup (JsSet.add v s).
Proof.
  intros Hnd. unfold JsSet.add, JsSet.has. case_bool_decide as Hv; [done|].
  apply NoDup_app. split; [done|]. split; [|apply NoDup_singleton].
  intros w Hw Hwv. apply list_elem_of_singleton in Hwv. by subst.
Qed.

Lemma NoDup_JsSet_delete {T} `{EqDecision T} (s : list T) v :
  NoDup s -> NoDup (JsSet.delete v s).
Proof.
  intros Hnd. unfold JsSet.delete.
  apply NoDup_ListNoDup, List.NoDup_filter. by apply NoDup_ListNoDup.
Qed.

Lemma changeListeners_perform c s :
  changeListeners (perform c s)
  = match c with
    | Subscribe callback => JsSet.add callback (changeListeners s)
    | Unsubscribe callback => JsSet.delete callback (changeListeners s)
    | _ => changeListeners s
    end.
Proof.
  destruct c; simpl; try done.
  - unfold removeElement. destruct (JsMap.has _ _); [|done].
    by destruct (isSelectedId _ _).
  - unfold updateElement. by destruct (JsMap.get _ _).
  - unfold duplicateElement. by destruct (JsMap.get _ _).
  - unfold moveElementToFront. by destruct (JsMap.get _ _).
  - unfold moveElementToBack. by destruct (JsMap.get _ _).
Qed.

(** In every reachable state the change listeners form a set: no callback
    is registered twice. *)
Lemma reachable_changeListeners_set s :
  reachable s -> NoDup (changeListeners s).
Proof.
  induction 1 as [|c s Hreach IH]; [apply NoDup_nil_2|].
  rewrite changeListeners_perform.
  destruct c; try done.
  - by apply NoDup_JsSet_add.
  - by apply NoDup_JsSet_delete.
Qed.
End WellFormed.

(** ** Cell keys *)

Section CellKeys.
Import Grid.

Lemma to_int_not_nil n : Z.to_int n <> Decimal.Pos Decimal.Nil
                         /\ Z.to_int n <> Decimal.Neg Decimal.Nil.
Proof.
  destruct n as [|p|p]; simpl; split; try discriminate;
    intros [= H]; by apply Unsigned.to_uint_nonnil in H.
Qed.

Lemma numberToString_inj n1 n2 :
  Js.numberToString n1 = Js.numberToString n2 -> n1 = n2.
Proof.
  unfold Js.numberToString. intros H.
  apply (f_equal NilZero.int_of_string) in H.
  destruct (to_int_not_nil n1) as [Hp1 Hn1].
  destruct (to_int_not_nil n2) as [Hp2 Hn2].
  rewrite !NilZero.isi in H by done.
  injection H as H. apply (f_equal Z.of_int) in H.
  by rewrite !DecimalZ.of_to in H.
Qed.

Lemma string_of_uint_commaFree d : GridSearch.commaFree (NilEmpty.string_of_uint d) = true.
Proof. induction d; simpl; done. Qed.

Lemma numberToString_commaFree n : GridSearch.commaFree (Js.numberToString n) = true.
Proof.
  unfold Js.numberToString.
  destruct (Z.to_int n) as [d|d]; simpl; destruct d; simpl;
    try done; apply string_of_uint_commaFree.
Qed.

(** Two texts without a comma that agree once a comma and more text
    follow are equal, and so is what follows. *)
Lemma split_at_comma s1 s2 t1 t2 :
  GridSearch.commaFree s1 = true -> GridSearch.commaFree s2 = true ->
  (s1 ++ String "," t1 = s2 ++ String "," t2)%string ->
  s1 = s2 /\ t1 = t2.
Proof.
  revert s2. induction s1 as [|c s1 IH]; intros [|c2 s2] H1 H2 H; simpl in *.
  - by injection H as ->.
  - injection H as <- _. by rewrite Ascii.eqb_refl in H2.
  - injection H as -> _. by rewrite Ascii.eqb_refl in H1.
  - injection H as -> H.
    apply andb_true_iff in H1 as [_ H1]. apply andb_true_iff in H2 as [_ H2].
    destruct (IH s2 H1 H2 H) as [-> ->]. done.
Qed.
Lemma cellKey_inj row1 col1 row2 col2 :
  cellKey row1 col1 = cellKey row2 col2 -> row1 = row2 /\ col1 = col2.
Proof.
  unfold cellKey. intros H.
  apply split_at_comma in H as [Hrow Hcol];
    try apply numberToString_commaFree.
  split; by apply numberToString_inj.
Qed.
End CellKeys.

(** The key ["row,col"] of a cell determines the cell: distinct cells of
    the grid never share an entry of [grid]. *)
Theorem cellKey_determines_cell :
  forall row1 col1 row2 col2 : Z,
    Grid.cellKey row1 col1 = Grid.cellKey row2 col2 <->
    row1 = row2 /\ col1 = col2.
Proof.
  intros row1 col1 row2 col2. split; [apply cellKey_inj|by intros [-> ->]].
Qed.

(** ** The search for a free cell *)

Section FreeCell.
Import Grid GridSearch.

(** Among the first [size grid + 1] cells of a sequence of distinct cells
    one is free: the first free one, with only occupied cells before it. *)
Lemma first_free_in_sequence (g : CanvasGridManager) (cell : nat -> Z * Z) :
  (forall i j, cell i = cell j -> i = j) ->
  exists k, (k <= size (grid g))%nat
            /\ occupied g (cell k) = false
            /\ forall j, (j < k)%nat -> occupied g (cell j) = true.
Proof.
  intros Hinj.
  assert (forall n,
            (exists k, (k <= n)%nat /\ occupied g (cell k) = false
                       /\ forall j, (j < k)%nat -> occupied g (cell j) = true)
            \/ forall k, (k <= n)%nat -> occupied g (cell k) = true) as Hsearch.
  { induction n as [|n [IH|IH]].
    - destruct (occupied g (cell 0%nat)) eqn:E.
      + right. intros k Hk. by replace k with 0%nat by lia.
      + left. exists 0%nat. repeat split; [lia|done|lia].
    - left. destruct IH as (k & Hk & Hfree & Hbefore).
      exists k. repeat split; [lia|done|done].
    - destruct (occupied g (cell (S n))) eqn:E.
      + right. intros k Hk. destruct (decide (k = S n)) as [->|Hne]; [done|].
        apply IH. lia.
      + left. exists (S n). repeat split; [lia|done|].
        intros j Hj. apply IH. lia. }
  destruct (Hsearch (size (grid g))) as [H|Hfull]; [exact H|].
  exfalso.
  set (key := fun k : nat => cellKey (fst (cell k)) (snd (cell k))).
  set (keys := key <$> seq 0 (S (size (grid g)))).
  assert (NoDup keys) as Hnd.
  { apply NoDup_fmap_2; [|apply NoDup_seq].
    intros i j Hij. apply Hinj. unfold key in Hij.
    apply cellKey_inj in Hij as [H1 H2].
    destruct (cell i), (cell j); simpl in *; congruence. }
  assert ((list_to_set keys : gset string) ⊆ dom (grid g)) as Hsub.
  { intros k Hk. apply elem_of_list_to_set, list_elem_of_fmap in Hk
      as (i & -> & Hi).
    apply elem_of_seq in Hi. apply elem_of_dom.
    specialize (Hfull i ltac:(lia)).
    unfold occupied, getCanvasAt in Hfull. unfold key.
    by destruct (grid g !! cellKey (cell i).1 (cell i).2). }
  apply subseteq_size in Hsub.
  rewrite size_list_to_set, size_dom in Hsub by done.
  unfold keys in Hsub. rewrite length_fmap, length_seq in Hsub. lia.
Qed.

Lemma scanRight_first_free fuel row col g k :
  (k < fuel)%nat ->
  occupied g (row, col + Z.of_nat k) = false ->
  (forall j, (j < k)%nat -> occupied g (row, col + Z.of_nat j) = true) ->
  scanRight fuel row col g = Some {| row := row; col := col + Z.of_nat k |}.
Proof.
  revert col k. induction fuel as [|fuel IH]; intros col k Hk Hfree Hbefore;
    [lia|].
  simpl. destruct k as [|k].
  - unfold occupied in Hfree. simpl in Hfree.
    rewrite Z.add_0_r in *. by destruct (getCanvasAt row col g).
  - specialize (Hbefore 0%nat ltac:(lia)) as H0.
    unfold occupied in H0. simpl in H0. rewrite Z.add_0_r in H0.
    destruct (getCanvasAt row col g); [|done].
    rewrite (IH (col + 1) k); [f_equal; f_equal; lia|lia| |].
    + by replace (col + 1 + Z.of_nat k) with (col + Z.of_nat (S k)) by lia.
    + intros j Hj.
      replace (col + 1 + Z.of_nat j) with (col + Z.of_nat (S j)) by lia.
      apply Hbefore. lia.
Qed.

Lemma scanBelow_first_free fuel row col g k :
  (k < fuel)%nat ->
  occupied g (row + Z.of_nat k, col) = false ->
  (forall j, (j < k)%nat -> occupied g (row + Z.of_nat j, col) = true) ->
  scanBelow fuel row col g = Some {| row := row + Z.of_nat k; col := col |}.
Proof.
  revert row k. induction fuel as [|fuel IH]; intros row k Hk Hfree Hbefore;
    [lia|].
  simpl. destruct k as [|k].
  - unfold occupied in Hfree. simpl in Hfree.
    rewrite Z.add_0_r in *. by destruct (getCanvasAt row col g).
  - specialize (Hbefore 0%nat ltac:(lia)) as H0.
    unfold occupied in H0. simpl in H0. rewrite Z.add_0_r in H0.
    destruct (getCanvasAt row col g); [|done].
    rewrite (IH (row + 1) k); [f_equal; f_equal; lia|lia| |].
    + by replace (row + 1 + Z.of_nat k) with (row + Z.of_nat (S k)) by lia.
    + intros j Hj.
      replace (row + 1 + Z.of_nat j) with (row + Z.of_nat (S j)) by lia.
      apply Hbefore. lia.
Qed.

Lemma occupied_false g row col :
  occupied g (row, col) = false -> getCanvasAt row col g = None.
Proof. unfold occupied. simpl. by destruct (getCanvasAt row col g). Qed.

Lemma occupied_true g row col :
  occupied g (row, col) = true -> is_Some (getCanvasAt row col g).
Proof. unfold occupied. simpl. by destruct (getCanvasAt row col g); eauto. Qed.
End FreeCell.

(** [findNextPosition] relative to a placed viewport, with more tests
    allowed than the grid has entries, returns a position: a free cell of
    the reference's row to its right (resp. of its column below it), with
    only occupied cells between the reference and it. *)
Theorem findNextPosition_finds_free_cell
    (g : Grid.CanvasGridManager) (direction : GridSearch.Direction)
    (reference : string) (refPosition : Grid.GridPosition) (fuel : nat)
    (Hnamed : Js.truthy reference = true)
    (Hplaced : Grid.getCanvasPosition reference g = Some refPosition)
    (Hfuel : (size (Grid.grid g) < fuel)%nat) :
  exists position,
    GridSearch.findNextPosition fuel direction (Some reference) g
    = Some position
    /\ Grid.getCanvasAt (Grid.row position) (Grid.col position) g = None
    /\ match direction with
       | GridSearch.toRight =>
           Grid.row position = Grid.row refPosition
           /\ Grid.col refPosition < Grid.col position
           /\ forall c, Grid.col refPosition < c < Grid.col position ->
                        is_Some (Grid.getCanvasAt (Grid.row refPosition) c g)
       | GridSearch.toBottom =>
           Grid.col position = Grid.col refPosition
           /\ Grid.row refPosition < Grid.row position
           /\ forall r, Grid.row refPosition < r < Grid.row position ->
                        is_Some (Grid.getCanvasAt r (Grid.col refPosition) g)
       end.
Proof.
  unfold Grid.getCanvasPosition in Hplaced.
  unfold GridSearch.findNextPosition. rewrite Hnamed, Hplaced. simpl.
  destruct direction.
  - destruct (first_free_in_sequence g
                (fun k => (Grid.row refPosition,
                           Grid.col refPosition + 1 + Z.of_nat k)))
      as (k & Hk & Hfree & Hbefore).
    { intros i j [= H]. lia. }
    exists {| Grid.row := Grid.row refPosition;
              Grid.col := Grid.col refPosition + 1 + Z.of_nat k |}.
    split; [apply scanRight_first_free; [lia|done|done]|].
    split; [by apply occupied_false|]. simpl.
    split; [done|]. split; [lia|].
    intros c Hc. apply occupied_true.
    replace c with (Grid.col refPosition + 1
                    + Z.of_nat (Z.to_nat (c - Grid.col refPosition - 1)))
      by lia.
    apply Hbefore. lia.
  - destruct (first_free_in_sequence g
                (fun k => (Grid.row refPosition + 1 + Z.of_nat k,
                           Grid.col refPosition)))
      as (k & Hk & Hfree & Hbefore).
    { intros i j [= H]. lia. }
    exists {| Grid.row := Grid.row refPosition + 1 + Z.of_nat k;
              Grid.col := Grid.col refPosition |}.
    split; [apply scanBelow_first_free; [lia|done|done]|].
    split; [by apply occupied_false|]. simpl.
    split; [done|]. split; [lia|].
    intros r Hr. apply occupied_true.
    replace r with (Grid.row refPosition + 1
                    + Z.of_nat (Z.to_nat (r - Grid.row refPosition - 1)))
      by lia.
    apply Hbefore. lia.
Qed.

Section FirstAvailable.
Import Grid GridSearch.

Lemma firstFreeInRow_spec n row col g :
  match firstFreeInRow n row col g with
  | Some position =>
      Grid.row position = row
      /\ col <= Grid.col position < col + Z.of_nat n
      /\ getCanvasAt row (Grid.col position) g = None
      /\ forall c, col <= c < Grid.col position -> is_Some (getCanvasAt row c g)
  | None =>
      forall c, col <= c < col + Z.of_nat n -> is_Some (getCanvasAt row c g)
  end.
Proof.
  revert col. induction n as [|n IH]; intros col; simpl; [lia|].
  destruct (getCanvasAt row col g) as [canvasId|] eqn:E.
  - specialize (IH (col + 1)).
    destruct (firstFreeInRow n row (col + 1) g) as [position|].
    + destruct IH as (Hrow & Hcol & Hfree & Hbefore).
      split; [done|]. split; [lia|]. split; [done|].
      intros c Hc. destruct (decide (c = col)) as [->|Hne]; [by rewrite E|].
      apply Hbefore. lia.
    + intros c Hc. destruct (decide (c = col)) as [->|Hne]; [by rewrite E|].
      apply IH. lia.
  - simpl. split; [done|]. split; [lia|]. split; [done|]. lia.
Qed.

Lemma firstFreeFromRow_spec n row g :
  match firstFreeFromRow n row g with
  | Some position =>
      row <= Grid.row position < row + Z.of_nat n
      /\ 0 <= Grid.col position < 10
      /\ getCanvasAt (Grid.row position) (Grid.col position) g = None
      /\ forall r c,
           0 <= c < 10 ->
           row <= r < Grid.row position
           \/ (r = Grid.row position /\ c < Grid.col position) ->
           is_Some (getCanvasAt r c g)
  | None =>
      forall r c, row <= r < row + Z.of_nat n -> 0 <= c < 10 ->
                  is_Some (getCanvasAt r c g)
  end.
Proof.
  revert row. induction n as [|n IH]; intros row; [simpl; lia|].
  cbn [firstFreeFromRow].
  pose proof (firstFreeInRow_spec 10 row 0 g) as Hrow.
  destruct (firstFreeInRow 10 row 0 g) as [position|].
  - destruct Hrow as (Hr & Hc & Hfree & Hbefore).
    split; [lia|]. split; [lia|]. split; [by rewrite Hr|].
    intros r c Hc' [Hlt|[-> Hlt]]; [lia|].
    rewrite Hr. apply Hbefore. lia.
  - specialize (IH (row + 1)).
    destruct (firstFreeFromRow n (row + 1) g) as [position|].
    + destruct IH as (Hr & Hc & Hfree & Hbefore).
      split; [lia|]. split; [lia|]. split; [done|].
      intros r c Hc' Hr'.
      destruct (decide (r = row)) as [->|Hne]; [apply Hrow; lia|].
      apply Hbefore; [done|]. lia.
    + intros r c Hr Hc.
      destruct (decide (r = row)) as [->|Hne]; [apply Hrow; lia|].
      apply IH; lia.
Qed.
End FirstAvailable.

(** [findFirstAvailablePosition] answers a cell of the block of 10 x 10
    cells at the origin: the first free one in row-major order when the
    block has a free cell, and the occupied cell (0, 0) when the block is
    full. *)
Theorem findFirstAvailablePosition_scans_block :
  forall g : Grid.CanvasGridManager,
    let position := GridSearch.findFirstAvailablePosition g in
    let occupiedAt r c := is_Some (Grid.getCanvasAt r c g) in
    0 <= Grid.row position < 10 /\ 0 <= Grid.col position < 10
    /\ ((Grid.getCanvasAt (Grid.row position) (Grid.col position) g = None
         /\ forall r c,
              0 <= r -> 0 <= c < 10 ->
              r < Grid.row position
              \/ (r = Grid.row position /\ c < Grid.col position) ->
              occupiedAt r c)
        \/ (position = {| Grid.row := 0; Grid.col := 0 |}
            /\ forall r c, 0 <= r < 10 -> 0 <= c < 10 -> occupiedAt r c)).
Proof.
  intros g position occupiedAt. subst position occupiedAt.
  unfold GridSearch.findFirstAvailablePosition.
  pose proof (firstFreeFromRow_spec 10 0 g) as H.
  destruct (GridSearch.firstFreeFromRow 10 0 g) as [position|].
  - destruct H as (Hr & Hc & Hfree & Hbefore).
    split; [lia|]. split; [lia|]. left. split; [done|].
    intros r c Hr' Hc' Hlt. apply Hbefore; [done|]. lia.
  - cbn [Grid.row Grid.col]. split; [lia|]. split; [lia|]. right.
    split; [done|]. intros r c Hr Hc. apply H; lia.
Qed.

(** ** Placing and removing viewports *)

Section Placing.
Import Grid GridSearch.

Lemma adjacent_fold position g (l : list (string * Z * Z))
    (acc : list (string * string)) :
  fold_left
    (fun adjacent '(dir, dr, dc) =>
       match getCanvasAt (row position + dr) (col position + dc) g with
       | Some adjacentCanvas => adjacent ++ [(dir, adjacentCanvas)]
       | None => adjacent
       end) l acc
  = acc ++ omap (fun '(dir, dr, dc) =>
                   pair dir <$> getCanvasAt (row position + dr)
                                            (col position + dc) g) l.
Proof.
  revert acc. induction l as [|[[dir dr] dc] l IH]; intros acc; simpl.
  - by rewrite app_nil_r.
  - rewrite IH.
    destruct (getCanvasAt (row position + dr) (col position + dc) g); simpl;
      [|done].
    by rewrite <- app_assoc.
Qed.

(** The neighbours [getAdjacentCanvases] reports: the occupants of the
    eight cells around the viewport's cell. *)
Lemma elem_of_getAdjacentCanvases canvasId position g dir adjacentId :
  canvasPositions g !! canvasId = Some position ->
  (dir, adjacentId) ∈ getAdjacentCanvases canvasId g <->
  exists dr dc, (dir, dr, dc) ∈ directions
                /\ getCanvasAt (row position + dr) (col position + dc) g
                   = Some adjacentId.
Proof.
  intros Hpos. unfold getAdjacentCanvases. rewrite Hpos.
  rewrite adjacent_fold, app_nil_l, list_elem_of_omap. split.
  - intros ([[d dr] dc] & Hin & Heq).
    destruct (getCanvasAt (row position + dr) (col position + dc) g) eqn:E;
      [|done].
    injection Heq as -> ->. by exists dr, dc.
  - intros (dr & dc & Hin & Hat). exists (dir, dr, dc). by rewrite Hat.
Qed.

Lemma recordLinks_cons canvasId dir adjacentId adjacent g :
  recordLinks canvasId ((dir, adjacentId) :: adjacent) g
  = recordLinks canvasId adjacent
      (match linkStates g !! getLinkKey canvasId adjacentId with
       | Some _ => g
       | None =>
           {| grid := grid g;
              canvasPositions := canvasPositions g;
              linkStates :=
                <[getLinkKey canvasId adjacentId := true]> (linkStates g) |}
       end).
Proof. reflexivity. Qed.

Lemma recordLinks_effect canvasId adjacent g :
  grid (recordLinks canvasId adjacent g) = grid g
  /\ canvasPositions (recordLinks canvasId adjacent g) = canvasPositions g
  /\ (forall k enabled,
        linkStates g !! k = Some enabled ->
        linkStates (recordLinks canvasId adjacent g) !! k = Some enabled)
  /\ (forall k,
        linkStates g !! k = None ->
        linkStates (recordLinks canvasId adjacent g) !! k
        = if bool_decide (k ∈ (fun d => getLinkKey canvasId d.2) <$> adjacent)
          then Some true else None).
Proof.
  revert g. induction adjacent as [|[dir adjacentId] adjacent IH]; intros g.
  - simpl. repeat split; done.
  - rewrite recordLinks_cons.
    destruct (linkStates g !! getLinkKey canvasId adjacentId)
      as [recorded|] eqn:E.
    + destruct (IH g) as (Hgrid & Hpos & Hkept & Hnew).
      split; [done|]. split; [done|]. split; [done|].
      intros k Hk. rewrite Hnew by done.
      match goal with
      | |- (if bool_decide ?P then _ else _) = (if bool_decide ?Q then _ else _)
        => rewrite (bool_decide_ext P Q); [done|]
      end.
      rewrite fmap_cons, elem_of_cons. simpl.
      split; [by right|]. intros [->|?]; [congruence|done].
    + match goal with
      | |- context [recordLinks canvasId adjacent ?g1] =>
          destruct (IH g1) as (Hgrid & Hpos & Hkept & Hnew)
      end.
      simpl in Hgrid, Hpos, Hkept, Hnew.
      split; [done|]. split; [done|]. split.
      * intros k enabled Hk. apply Hkept.
        rewrite lookup_insert_ne; [done|]. intros <-. congruence.
      * intros k Hk. rewrite fmap_cons.
        destruct (decide (getLinkKey canvasId adjacentId = k)) as [<-|Hne].
        -- rewrite (Hkept _ true) by apply lookup_insert_eq.
           by rewrite bool_decide_eq_true_2 by apply list_elem_of_here.
        -- rewrite Hnew by (by rewrite lookup_insert_ne).
           match goal with
           | |- (if bool_decide ?P then _ else _)
                = (if bool_decide ?Q then _ else _)
             => rewrite (bool_decide_ext P Q); [done|]
           end.
           rewrite elem_of_cons. simpl.
           split; [by right|]. intros [->|?]; done.
Qed.

Lemma createAdjacentLinks_recordLinks canvasId row col g :
  createAdjacentLinks canvasId row col g
  = recordLinks canvasId (getAdjacentCanvases canvasId g) g.
Proof. reflexivity. Qed.

Lemma getCanvasAt_other_cell key canvasId positions links r c g :
  key <> cellKey r c ->
  getCanvasAt r c
    {| grid := <[key := canvasId]> (grid g);
       canvasPositions := positions; linkStates := links |}
  = getCanvasAt r c g.
Proof.
  intros Hne. unfold getCanvasAt. simpl. by rewrite lookup_insert_ne.
Qed.

Lemma direction_is_not_here dir dr dc :
  (dir, dr, dc) ∈ directions -> dr <> 0 \/ dc <> 0.
Proof.
  unfold directions. rewrite !elem_of_cons, elem_of_nil.
  intros H. repeat destruct H as [H|H]; try done; injection H as -> -> ->;
    lia.
Qed.

Lemma prefix_app s t : String.prefix s (s ++ t)%string = true.
Proof.
  induction s as [|c s IH]; simpl; [by destruct t|].
  destruct (ascii_dec c c); [exact IH|done].
Qed.

Lemma string_app_assoc (s t u : string) :
  ((s ++ t) ++ u = s ++ (t ++ u))%string.
Proof.
  induction s as [|c s IH]; [done|].
  change (String c ((s ++ t) ++ u) = String c (s ++ (t ++ u)))%string.
  by rewrite IH.
Qed.

Lemma prefix_refl s : String.prefix s s = true.
Proof.
  induction s as [|c s IH]; simpl; [done|].
  destruct (ascii_dec c c); [exact IH|done].
Qed.

Lemma includes_app_l s t : Js.includes (s ++ t)%string s = true.
Proof.
  destruct s as [|c s]; simpl.
  - by destruct t.
  - destruct (ascii_dec c c); [|done]. by rewrite prefix_app.
Qed.

Lemma includes_app_r s t : Js.includes (t ++ s)%string s = true.
Proof.
  induction t as [|c t IH]; simpl.
  - destruct s as [|c s]; simpl; [done|].
    destruct (ascii_dec c c); [|done]. by rewrite prefix_refl.
  - rewrite IH. apply orb_true_r.
Qed.

(** The key of a pair contains both ids. *)
Lemma getLinkKey_includes a b :
  Js.includes (getLinkKey a b) a = true /\ Js.includes (getLinkKey a b) b = true.
Proof.
  unfold getLinkKey, Js.sort, Js.join. simpl.
  destruct (String.ltb b a); simpl; split;
    try apply includes_app_l;
    rewrite <- string_app_assoc; apply includes_app_r.
Qed.
End Placing.

(** [addCanvas] records the viewport at the cell and the cell as holding
    the viewport, and leaves the position of every other viewport and the
    occupant of every other cell as they were (a viewport that sat in the
    cell keeps its recorded position). *)
Theorem addCanvas_records_position :
  forall (g : Grid.CanvasGridManager) (canvasId : string) (row col : Z),
    let g' := Grid.addCanvas canvasId row col g in
    Grid.getCanvasPosition canvasId g'
    = Some {| Grid.row := row; Grid.col := col |}
    /\ Grid.getCanvasAt row col g'
       = (if Js.truthy canvasId then Some canvasId else None)
    /\ (forall other, other <> canvasId ->
          Grid.getCanvasPosition other g' = Grid.getCanvasPosition other g)
    /\ (forall r c, (r, c) <> (row, col) ->
          Grid.getCanvasAt r c g' = Grid.getCanvasAt r c g).
Proof.
  intros g canvasId row col g'. subst g'.
  unfold Grid.addCanvas. rewrite createAdjacentLinks_recordLinks.
  match goal with
  | |- context [GridSearch.recordLinks ?i ?l ?g1] =>
      destruct (recordLinks_effect i l g1) as (Hgrid & Hpos & _ & _)
  end.
  unfold Grid.getCanvasPosition, Grid.getCanvasAt.
  rewrite Hgrid, Hpos. simpl. split; [apply lookup_insert_eq|].
  split; [by rewrite lookup_insert_eq|]. split.
  - intros other Hne. by rewrite lookup_insert_ne.
  - intros r c Hne. rewrite lookup_insert_ne; [done|].
    intros H. apply cellKey_inj in H as [-> ->]. done.
Qed.

(** [addCanvas] never changes a link state that is already recorded, and
    when a viewport sits in one of the eight cells around the new one the
    pair has a recorded link afterwards, enabled if the pair was not
    recorded before. *)
Theorem addCanvas_links_neighbours :
  forall (g : Grid.CanvasGridManager) (canvasId : string) (row col : Z),
    let g' := Grid.addCanvas canvasId row col g in
    (forall key enabled,
        Grid.linkStates g !! key = Some enabled ->
        Grid.linkStates g' !! key = Some enabled)
    /\ (forall dir dr dc neighbour,
          (dir, dr, dc) ∈ Grid.directions ->
          Grid.getCanvasAt (row + dr) (col + dc) g = Some neighbour ->
          is_Some (Grid.linkStates g' !! Grid.getLinkKey canvasId neighbour)
          /\ (Grid.linkStates g !! Grid.getLinkKey canvasId neighbour = None ->
              Grid.areCanvasesLinked canvasId neighbour g' = true)).
Proof.
  intros g canvasId row col g'. subst g'.
  unfold Grid.addCanvas. rewrite createAdjacentLinks_recordLinks.
  match goal with
  | |- context [GridSearch.recordLinks ?i ?l ?g1] =>
      set (placed := g1);
      destruct (recordLinks_effect i (Grid.getAdjacentCanvases i placed) placed)
        as (_ & _ & Hkept & Hnew)
  end.
  split; [exact Hkept|].
  intros dir dr dc neighbour Hdir Hat.
  assert ((dir, neighbour) ∈ Grid.getAdjacentCanvases canvasId placed) as Hadj.
  { apply (elem_of_getAdjacentCanvases canvasId
             {| Grid.row := row; Grid.col := col |});
      [apply lookup_insert_eq|].
    exists dr, dc. split; [done|]. simpl. unfold placed.
    rewrite getCanvasAt_other_cell; [done|].
    intros H. apply cellKey_inj in H as [H1 H2].
    apply direction_is_not_here in Hdir. lia. }
  assert (Grid.getLinkKey canvasId neighbour
          ∈ (fun d => Grid.getLinkKey canvasId d.2)
            <$> Grid.getAdjacentCanvases canvasId placed) as Hkey.
  { apply list_elem_of_fmap. by exists (dir, neighbour). }
  destruct (Grid.linkStates g !! Grid.getLinkKey canvasId neighbour)
    as [recorded|] eqn:E.
  - split; [|done]. exists recorded. by apply Hkept.
  - specialize (Hnew _ E). rewrite bool_decide_eq_true_2 in Hnew by done.
    split; [by eexists|]. intros _.
    unfold Grid.areCanvasesLinked, Grid.linkStateOrFalse. by rewrite Hnew.
Qed.

(** After [removeCanvas] of a placed viewport the viewport has no position
    and is linked to no viewport, whichever way the pair is named. *)
Theorem removeCanvas_unlinks_viewport
    (g : Grid.CanvasGridManager) (canvasId : string)
    (position : Grid.GridPosition)
    (Hplaced : Grid.getCanvasPosition canvasId g = Some position) :
  Grid.getCanvasPosition canvasId (Grid.removeCanvas canvasId g) = None
  /\ forall other,
       Grid.areCanvasesLinked canvasId other (Grid.removeCanvas canvasId g)
       = false
       /\ Grid.areCanvasesLinked other canvasId (Grid.removeCanvas canvasId g)
          = false.
Proof.
  destruct (removeCanvas_effect canvasId position g Hplaced)
    as (Hpos & _ & Hlinks).
  split; [exact Hpos|]. intros other.
  unfold Grid.areCanvasesLinked, Grid.linkStateOrFalse. rewrite !Hlinks.
  destruct (getLinkKey_includes canvasId other) as [-> _].
  destruct (getLinkKey_includes other canvasId) as [_ ->]. done.
Qed.

(** On the sample grid: canvas-10 is placed and linked to canvas-11, and
    after its removal it is linked to nobody. *)
Lemma removeCanvas_unlinks_viewport_witness :
  Grid.getCanvasPosition "canvas-10" Sample.threeCanvases
  = Some {| Grid.row := 5; Grid.col := 5 |}
  /\ Grid.areCanvasesLinked "canvas-10" "canvas-11" Sample.threeCanvases = true
  /\ Grid.areCanvasesLinked "canvas-10" "canvas-11"
       (Grid.removeCanvas "canvas-10" Sample.threeCanvases) = false.
Proof.
  assert (Grid.getCanvasPosition "canvas-10" Sample.threeCanvases
          = Some {| Grid.row := 5; Grid.col := 5 |}) as Hplaced
    by (vm_compute; reflexivity).
  split; [exact Hplaced|]. split; [vm_compute; reflexivity|].
  apply (removeCanvas_unlinks_viewport _ _ _ Hplaced).
Defined.

(** On the sample grid: right of canvas-10 the cell (5, 6) is taken, and
    the search with four tests allowed ends on a free cell. *)
Lemma findNextPosition_finds_free_cell_witness :
  exists position,
    GridSearch.findNextPosition 4 GridSearch.toRight (Some "canvas-10")
      Sample.threeCanvases = Some position
    /\ Grid.getCanvasAt (Grid.row position) (Grid.col position)
         Sample.threeCanvases = None
    /\ Grid.row position = 5 /\ 5 < Grid.col position.
Proof.
  assert (Grid.getCanvasPosition "canvas-10" Sample.threeCanvases
          = Some {| Grid.row := 5; Grid.col := 5 |}) as Hplaced
    by (vm_compute; reflexivity).
  assert (size (Grid.grid Sample.threeCanvases) < 4)%nat as Hfuel
    by (apply Nat.ltb_lt; vm_compute; reflexivity).
  destruct (findNextPosition_finds_free_cell Sample.threeCanvases
              GridSearch.toRight "canvas-10" _ 4 eq_refl Hplaced Hfuel)
    as (position & Hfound & Hfree & Hrow & Hcol & _).
  exists position. simpl in Hrow, Hcol.
  split; [exact Hfound|]. split; [exact Hfree|].
  split; [exact Hrow|exact Hcol].
Defined.

Example findNextPosition_skips_taken_cell :
  GridSearch.findNextPosition 4 GridSearch.toRight (Some "canvas-10")
    Sample.threeCanvases
  = Some {| Grid.row := 5; Grid.col := 7 |}
  /\ GridSearch.findNextPosition 4 GridSearch.toBottom (Some "canvas-10")
       Sample.threeCanvases
     = Some {| Grid.row := 6; Grid.col := 5 |}
  /\ GridSearch.findNextPosition 4 GridSearch.toRight None Grid.empty
     = Some {| Grid.row := 0; Grid.col := 0 |}
  /\ GridSearch.findNextPosition 4 GridSearch.toRight None Sample.threeCanvases
     = Some {| Grid.row := 0; Grid.col := 1 |}.
Proof. vm_compute. repeat split. Qed.

(** The link of a pair does not depend on the order in which the two ids
    are given: reading, toggling and setting it act on one entry. *)
Theorem link_pair_is_unordered :
  forall (g : Grid.CanvasGridManager) (a b : string) (enabled : bool),
    Grid.areCanvasesLinked a b g = Grid.areCanvasesLinked b a g
    /\ Grid.toggleLink a b g = Grid.toggleLink b a g
    /\ Grid.setLinkState a b enabled g = Grid.setLinkState b a enabled g.
Proof.
  intros g a b enabled.
  unfold Grid.areCanvasesLinked, Grid.toggleLink, Grid.setLinkState.
  by rewrite (getLinkKey_sym a b).
Qed.

(** [canElementMoveBetweenCanvases] does not depend on the direction of the
    move, and it allows a move only between two placed viewports at most
    one cell apart in each axis whose link is enabled. *)
Theorem canElementMoveBetweenCanvases_needs_adjacent_link :
  forall (g : Grid.CanvasGridManager) (a b : string),
    Grid.canElementMoveBetweenCanvases a b g
    = Grid.canElementMoveBetweenCanvases b a g
    /\ (Grid.canElementMoveBetweenCanvases a b g = true ->
        exists pa pb,
          Grid.getCanvasPosition a g = Some pa
          /\ Grid.getCanvasPosition b g = Some pb
          /\ Z.abs (Grid.row pa - Grid.row pb) <= 1
          /\ Z.abs (Grid.col pa - Grid.col pb) <= 1
          /\ Grid.areCanvasesLinked a b g = true).
Proof.
  intros g a b. unfold Grid.canElementMoveBetweenCanvases, Grid.getCanvasPosition.
  destruct (Grid.canvasPositions g !! a) as [pa|],
           (Grid.canvasPositions g !! b) as [pb|]; try done.
  split.
  - replace (Z.abs (Grid.row pb - Grid.row pa))
      with (Z.abs (Grid.row pa - Grid.row pb)) by lia.
    replace (Z.abs (Grid.col pb - Grid.col pa))
      with (Z.abs (Grid.col pa - Grid.col pb)) by lia.
    unfold Grid.areCanvasesLinked. by rewrite (getLinkKey_sym a b).
  - destruct (1 <? Z.abs (Grid.row pa - Grid.row pb)) eqn:Er;
      destruct (1 <? Z.abs (Grid.col pa - Grid.col pb)) eqn:Ec; try done.
    simpl. intros Hlinked. exists pa, pb.
    apply Z.ltb_ge in Er, Ec. done.
Qed.

(** ** The element map: storing, replacing, reordering *)

Section ElementMap.
Context {V : Type}.
Implicit Types (m : list (string * V)) (k : string).

Lemma get_set_eq m k v : JsMap.get k (JsMap.set k v m) = Some v.
Proof.
  induction m as [|[k0 v0] m IH]; simpl.
  - by rewrite decide_True.
  - destruct (decide (k0 = k)) as [->|Hne]; simpl.
    + by rewrite decide_True.
    + by rewrite decide_False.
Qed.

Lemma get_set_ne m k k' v :
  k <> k' -> JsMap.get k' (JsMap.set k v m) = JsMap.get k' m.
Proof.
  intros Hne. induction m as [|[k0 v0] m IH]; simpl.
  - by rewrite decide_False.
  - destruct (decide (k0 = k)) as [->|Hne0]; simpl.
    + by rewrite !decide_False.
    + by rewrite IH.
Qed.

Lemma get_delete_ne m k k' :
  k <> k' -> JsMap.get k' (JsMap.delete k m) = JsMap.get k' m.
Proof.
  intros Hne. induction m as [|[k0 v0] m IH]; simpl; [done|].
  case_bool_decide as Hk; simpl.
  - subst k0. by rewrite decide_False.
  - by rewrite IH.
Qed.

Lemma get_None_keys m k : JsMap.get k m = None <-> k ∉ JsMap.keys m.
Proof.
  induction m as [|[k0 v0] m IH]; simpl.
  - split; [intros _; apply not_elem_of_nil|done].
  - rewrite not_elem_of_cons. destruct (decide (k0 = k)) as [->|Hne].
    + split; [done|]. by intros [? _].
    + rewrite IH. split; [by split|by intros [_ ?]].
Qed.

Lemma set_fresh m k v :
  JsMap.get k m = None -> JsMap.set k v m = m ++ [(k, v)].
Proof.
  induction m as [|[k0 v0] m IH]; simpl; [done|].
  destruct (decide (k0 = k)); [done|]. intros H. by rewrite IH.
Qed.

Lemma keys_set_present m k v :
  is_Some (JsMap.get k m) -> JsMap.keys (JsMap.set k v m) = JsMap.keys m.
Proof.
  induction m as [|[k0 v0] m IH]; simpl; [by intros [? ?]|].
  destruct (decide (k0 = k)) as [->|Hne]; simpl; [done|].
  intros H. by rewrite IH.
Qed.

Lemma keys_delete m k :
  JsMap.keys (JsMap.delete k m)
  = List.filter (fun k' => negb (bool_decide (k' = k))) (JsMap.keys m).
Proof.
  induction m as [|[k0 v0] m IH]; simpl; [done|].
  destruct (bool_decide (k0 = k)); simpl; by rewrite IH.
Qed.

Lemma NoDup_keys_delete m k :
  NoDup (JsMap.keys m) -> NoDup (JsMap.keys (JsMap.delete k m)).
Proof.
  intros Hnd. rewrite keys_delete.
  apply NoDup_ListNoDup, List.NoDup_filter. by apply NoDup_ListNoDup.
Qed.

(** Re-inserting the other entries of a map with distinct keys, one by
    one, behind what is already there. *)
Lemma reinsert_others m k (acc : list (string * V)) :
  NoDup (JsMap.keys acc ++ JsMap.keys (JsMap.delete k m)) ->
  fold_left
    (fun acc '(k', v') =>
       if negb (bool_decide (k' = k)) then JsMap.set k' v' acc else acc)
    m acc
  = acc ++ JsMap.delete k m.
Proof.
  revert acc. induction m as [|[k0 v0] m IH]; intros acc Hnd; simpl.
  - by rewrite app_nil_r.
  - simpl in Hnd.
    destruct (bool_decide (k0 = k)) eqn:E; simpl in *.
    + by apply IH.
    + apply NoDup_app in Hnd as (Hacc & Hdisj & Hrest).
      apply NoDup_cons in Hrest as [Hk0 Hrest].
      rewrite set_fresh.
      2: { apply get_None_keys. intros Hin.
           apply (Hdisj k0 Hin). apply list_elem_of_here. }
      rewrite IH; [by rewrite <- app_assoc|].
      unfold JsMap.keys. rewrite map_app. simpl.
      rewrite <- app_assoc. simpl.
      apply NoDup_app. split; [done|]. split; [|by apply NoDup_cons].
      intros x Hx. apply Hdisj in Hx. done.
Qed.
End ElementMap.

(** [addElement] then [getElement] returns the element; every other id
    reads as before. A new id goes last in the iteration order (topmost);
    an id that is already stored keeps its place in the order. *)
Theorem addElement_stores_element :
  forall (s : Store.GlobalElementManager) (e : Element.CanvasElement),
    let s' := Store.addElement e s in
    Store.getElement (Element.id e) s' = Some e
    /\ (forall other, other <> Element.id e ->
          Store.getElement other s' = Store.getElement other s)
    /\ (Store.getElement (Element.id e) s = None ->
          Store.getAllElements s' = Store.getAllElements s ++ [e])
    /\ (is_Some (Store.getElement (Element.id e) s) ->
          JsMap.keys (Store.elements s') = JsMap.keys (Store.elements s)).
Proof.
  intros s e s'. subst s'. unfold Store.getElement, Store.getAllElements.
  simpl. split; [apply get_set_eq|]. split; [|split].
  - intros other Hne. by apply get_set_ne.
  - intros Hnew. rewrite set_fresh by done.
    unfold JsMap.values. by rewrite map_app.
  - apply keys_set_present.
Qed.

Lemma removeElement_forgets_only_that_id_aux s elementId :
  Store.getElement elementId (Store.removeElement elementId s) = None
  /\ (forall other, other <> elementId ->
        Store.getElement other (Store.removeElement elementId s)
        = Store.getElement other s)
  /\ Store.selectedElementIds (Store.removeElement elementId s)
     = Store.selectedElementIds s.
Proof.
  unfold Store.removeElement, Store.getElement, JsMap.has.
  destruct (JsMap.get elementId (Store.elements s)) as [e|] eqn:E; [|done].
  assert (forall t, Store.elements
                      (Store.notifyChange
                         (if Store.isSelectedId elementId t
                          then Store.setSelectedElementId None t else t))
                    = Store.elements t) as Hel
    by (intros t; by destruct (Store.isSelectedId elementId t)).
  rewrite Hel. simpl. split; [apply get_delete_same|]. split.
  - intros other Hne. by apply get_delete_ne.
  - by destruct (Store.isSelectedId _ _).
Qed.

(** [removeElement] makes the id unknown, leaves every other id as it
    reads, keeps the order of the remaining elements, and does not touch
    the multi-selection set: an id removed from the store stays in it. *)
Theorem removeElement_forgets_only_that_id :
  forall (s : Store.GlobalElementManager) (elementId : string),
    let s' := Store.removeElement elementId s in
    Store.getElement elementId s' = None
    /\ (forall other, other <> elementId ->
          Store.getElement other s' = Store.getElement other s)
    /\ JsMap.keys (Store.elements s')
       = List.filter (fun k => negb (bool_decide (k = elementId)))
                     (JsMap.keys (Store.elements s))
    /\ Store.selectedElementIds s' = Store.selectedElementIds s.
Proof.
  intros s elementId s'. subst s'.
  unfold Store.removeElement, Store.getElement, JsMap.has.
  destruct (JsMap.get elementId (Store.elements s)) as [e|] eqn:E.
  - assert (forall t, Store.elements
                        (Store.notifyChange
                           (if Store.isSelectedId elementId t
                            then Store.setSelectedElementId None t else t))
                      = Store.elements t) as Hel
      by (intros t; by destruct (Store.isSelectedId elementId t)).
    rewrite Hel. simpl.
    split; [apply get_delete_same|]. split; [|split].
    + intros other Hne. by apply get_delete_ne.
    + apply keys_delete.
    + by destruct (Store.isSelectedId _ _).
  - split; [done|]. split; [done|]. split; [|done].
    rewrite <- keys_delete. by rewrite delete_absent.
Qed.

(** [updateElement] of a stored id merges the fields into the element in
    place: the element stays under its key, the iteration order and every
    other element are unchanged, and so is the selection. *)
Theorem updateElement_merges_in_place
    (s : Store.GlobalElementManager) (elementId : string)
    (updates : Element.Updates) (e : Element.CanvasElement)
    (Hstored : Store.getElement elementId s = Some e) :
  let s' := Store.updateElement elementId updates s in
  Store.getElement elementId s' = Some (Element.objectAssign e updates)
  /\ (forall other, other <> elementId ->
        Store.getElement other s' = Store.getElement other s)
  /\ JsMap.keys (Store.elements s') = JsMap.keys (Store.elements s)
  /\ Store.selectedElementId s' = Store.selectedElementId s
  /\ Store.selectedElementIds s' = Store.selectedElementIds s.
Proof.
  unfold Store.getElement in Hstored. unfold Store.updateElement.
  rewrite Hstored. unfold Store.getElement. simpl.
  split; [apply get_set_eq|]. split; [|split; [|done]].
  - intros other Hne. by apply get_set_ne.
  - apply keys_set_present. by rewrite Hstored.
Qed.

(** Moving box "a" of the sample store: it stays under "a", behind "b". *)
Lemma updateElement_merges_in_place_witness :
  let updates :=
    {| Element.u_id := None; Element.u_type := None;
       Element.u_x := Some 500; Element.u_y := Some 600;
       Element.u_width := None; Element.u_height := None;
       Element.u_content := None; Element.u_fontSize := None;
       Element.u_fontFamily := None; Element.u_fontWeight := None;
       Element.u_fontStyle := None; Element.u_textAlign := None;
       Element.u_color := None; Element.u_imageElement := None;
       Element.u_rotation := None; Element.u_canvasId := None;
       Element.u_cropX := None; Element.u_cropY := None;
       Element.u_cropWidth := None; Element.u_cropHeight := None;
       Element.u_originalWidth := None; Element.u_originalHeight := None |} in
  let s' := Store.updateElement "a" updates Sample.twoBoxes in
  Store.getElement "a" Sample.twoBoxes = Some (Element.textBox "a" 0 0 40 40)
  /\ Store.getElement "a" s' = Some (Element.textBox "a" 500 600 40 40)
  /\ JsMap.keys (Store.elements s') = ["a"; "b"].
Proof.
  intros updates s'.
  destruct (updateElement_merges_in_place Sample.twoBoxes "a" updates
              (Element.textBox "a" 0 0 40 40) eq_refl)
    as (Hget & _ & Hkeys & _).
  split; [reflexivity|]. split; [exact Hget|exact Hkeys].
Defined.

(** [moveElementToFront] of a stored id puts the element last in the
    iteration order and keeps all the others in their relative order. *)
Theorem moveElementToFront_keeps_other_order
    (s : Store.GlobalElementManager) (elementId : string)
    (e : Element.CanvasElement)
    (Hstored : Store.getElement elementId s = Some e) :
  Store.elements (Store.moveElementToFront elementId s)
  = JsMap.delete elementId (Store.elements s) ++ [(elementId, e)].
Proof.
  unfold Store.getElement in Hstored. unfold Store.moveElementToFront.
  rewrite Hstored. simpl. apply set_after_delete.
Qed.

Lemma moveElementToFront_keeps_other_order_witness :
  Store.getElement "a" Sample.twoBoxes = Some (Element.textBox "a" 0 0 40 40)
  /\ Store.getAllElements (Store.moveElementToFront "a" Sample.twoBoxes)
     = [Element.textBox "b" 10 10 40 40; Element.textBox "a" 0 0 40 40].
Proof.
  split; [reflexivity|]. unfold Store.getAllElements.
  rewrite (moveElementToFront_keeps_other_order Sample.twoBoxes "a"
             (Element.textBox "a" 0 0 40 40) eq_refl).
  reflexivity.
Defined.

(** [moveElementToBack] of a stored id puts the element first in the
    iteration order and keeps all the others in their relative order, in a
    map whose keys are distinct. *)
Theorem moveElementToBack_keeps_other_order
    (s : Store.GlobalElementManager) (elementId : string)
    (e : Element.CanvasElement)
    (Hmap : NoDup (JsMap.keys (Store.elements s)))
    (Hstored : Store.getElement elementId s = Some e) :
  Store.elements (Store.moveElementToBack elementId s)
  = (elementId, e) :: JsMap.delete elementId (Store.elements s).
Proof.
  unfold Store.getElement in Hstored. unfold Store.moveElementToBack.
  rewrite Hstored. simpl.
  rewrite (reinsert_others (Store.elements s) elementId [(elementId, e)]);
    [done|].
  simpl. apply NoDup_cons. split; [|by apply NoDup_keys_delete].
  apply get_None_keys, get_delete_same.
Qed.

Lemma moveElementToBack_keeps_other_order_witness :
  NoDup (JsMap.keys (Store.elements Sample.twoBoxes))
  /\ Store.getElement "b" Sample.twoBoxes
     = Some (Element.textBox "b" 10 10 40 40)
  /\ Store.getAllElements (Store.moveElementToBack "b" Sample.twoBoxes)
     = [Element.textBox "b" 10 10 40 40; Element.textBox "a" 0 0 40 40].
Proof.
  assert (NoDup (JsMap.keys (Store.elements Sample.twoBoxes))) as Hmap.
  { simpl. apply NoDup_cons. split; [|apply NoDup_singleton].
    intros H. apply list_elem_of_singleton in H. discriminate. }
  split; [exact Hmap|]. split; [reflexivity|]. unfold Store.getAllElements.
  rewrite (moveElementToBack_keeps_other_order Sample.twoBoxes "b"
             (Element.textBox "b" 10 10 40 40) Hmap eq_refl).
  reflexivity.
Defined.

(** On the sample store, at a point that both boxes cover. *)
Lemma hit_after_moveElementToFront_witness :
  Store.getElement "a" Sample.twoBoxes = Some (Element.textBox "a" 0 0 40 40)
  /\ Store.hitBy 20 20 (Element.textBox "a" 0 0 40 40) = true
  /\ Store.getElementAtPoint 20 20 Sample.twoBoxes
     = Some (Element.textBox "b" 10 10 40 40)
  /\ Store.getElementAtPoint 20 20
       (Store.moveElementToFront "a" Sample.twoBoxes)
     = Some (Element.textBox "a" 0 0 40 40).
Proof.
  split; [reflexivity|]. split; [reflexivity|]. split; [reflexivity|].
  exact (hit_after_moveElementToFront Sample.twoBoxes "a"
           (Element.textBox "a" 0 0 40 40) 20 20 eq_refl eq_refl).
Defined.

Section Duplicates.
Import Element Store StoreFacts.

Lemma duplicateOf_restored original newId dx dy :
  objectAssign (duplicateOf original newId dx dy)
    (idAndPosition (id original) (x original) (y original))
  = original.
Proof.
  unfold duplicateOf.
  destruct original as [i t px py w h c fs ff fw fst ta col img rot cid
                          cx cy cw ch ow oh].
  destruct t, img as [[source]|]; reflexivity.
Qed.

Lemma duplicateOf_fields original newId dx dy :
  id (duplicateOf original newId dx dy) = newId
  /\ x (duplicateOf original newId dx dy) = x original + dx
  /\ y (duplicateOf original newId dx dy) = y original + dy.
Proof.
  unfold duplicateOf. by destruct (type _), (imageElement original).
Qed.
End Duplicates.

(** [duplicateElement] of a stored id returns a copy that is stored under
    the id made from the clock, lies at the original's position plus the
    offsets (20 and 20 by default) and equals the original in every other
    field; the original stays as it is unless the new id is its own. *)
Theorem duplicateElement_copies_with_offset
    (s : Store.GlobalElementManager) (elementId : string)
    (offsetX offsetY : option Z) (now : Z) (original : Element.CanvasElement)
    (Hstored : Store.getElement elementId s = Some original) :
  exists duplicate,
    Store.duplicateElement elementId offsetX offsetY now s
    = (Some duplicate, Store.addElement duplicate s)
    /\ Element.id duplicate = StoreFacts.duplicateId now
    /\ Element.x duplicate = Element.x original + default 20 offsetX
    /\ Element.y duplicate = Element.y original + default 20 offsetY
    /\ Element.objectAssign duplicate
         (StoreFacts.idAndPosition (Element.id original)
            (Element.x original) (Element.y original))
       = original
    /\ Store.getElement (StoreFacts.duplicateId now)
         (Store.addElement duplicate s) = Some duplicate
    /\ (StoreFacts.duplicateId now <> elementId ->
        Store.getElement elementId (Store.addElement duplicate s)
        = Some original).
Proof.
  unfold Store.getElement in Hstored. unfold Store.duplicateElement.
  rewrite Hstored.
  destruct (duplicateOf_fields original (StoreFacts.duplicateId now)
              (default 20 offsetX) (default 20 offsetY))
    as (Hid & Hx & Hy).
  eexists. split; [reflexivity|].
  split; [exact Hid|]. split; [exact Hx|]. split; [exact Hy|].
  split; [apply duplicateOf_restored|]. unfold Store.getElement. simpl.
  fold (StoreFacts.duplicateId now). rewrite Hid.
  split; [apply get_set_eq|].
  intros Hne. by rewrite get_set_ne.
Qed.

(** Duplicating box "a" of the sample store with the default offsets. *)
Lemma duplicateElement_copies_with_offset_witness :
  Store.getElement "a" Sample.twoBoxes = Some (Element.textBox "a" 0 0 40 40)
  /\ exists duplicate,
       fst (Store.duplicateElement "a" None None 1700000000000
              Sample.twoBoxes) = Some duplicate
       /\ Element.id duplicate = "element-1700000000000"
       /\ Element.x duplicate = 20 /\ Element.y duplicate = 20.
Proof.
  split; [reflexivity|].
  destruct (duplicateElement_copies_with_offset Sample.twoBoxes "a" None None
              1700000000000 (Element.textBox "a" 0 0 40 40) eq_refl)
    as (duplicate & Hresult & Hid & Hx & Hy & _).
  exists duplicate. rewrite Hresult. done.
Defined.

(** ** Invariants of the reachable states *)

Section ReachableStates.
Import Store.

Lemma moveElementToBack_elements s elementId e :
  NoDup (JsMap.keys (elements s)) ->
  JsMap.get elementId (elements s) = Some e ->
  elements (moveElementToBack elementId s)
  = (elementId, e) :: JsMap.delete elementId (elements s).
Proof.
  intros Hmap Hstored. unfold moveElementToBack. rewrite Hstored. simpl.
  rewrite (reinsert_others (elements s) elementId [(elementId, e)]);
    [done|].
  simpl. apply NoDup_cons. split; [|by apply NoDup_keys_delete].
  apply get_None_keys, get_delete_same.
Qed.

Lemma perform_keeps_keys_distinct c s :
  NoDup (JsMap.keys (elements s)) ->
  NoDup (JsMap.keys (elements (perform c s))).
Proof.
  intros Hmap. destruct c; simpl; try done.
  - by apply NoDup_keys_set.
  - unfold removeElement. destruct (JsMap.has _ _); [|done].
    destruct (isSelectedId _ _); simpl; by apply NoDup_keys_delete.
  - unfold updateElement. destruct (JsMap.get _ _); [|done].
    simpl. by apply NoDup_keys_set.
  - apply NoDup_nil_2.
  - unfold duplicateElement. destruct (JsMap.get _ _); [|done].
    simpl. by apply NoDup_keys_set.
  - unfold moveElementToFront. destruct (JsMap.get _ _); [|done].
    simpl. by apply NoDup_keys_set, NoDup_keys_delete.
  - destruct (JsMap.get elementId (elements s)) as [e|] eqn:E.
    + rewrite (moveElementToBack_elements s elementId e) by done.
      simpl. apply NoDup_cons. split; [|by apply NoDup_keys_delete].
      apply get_None_keys, get_delete_same.
    + unfold moveElementToBack. by rewrite E.
Qed.

Lemma not_listed (l : list Callback) (callback : Callback) :
  callback ∉ l ->
  List.filter (fun c => bool_decide (c = callback)) l = [].
Proof.
  induction l as [|c l IH]; intros Hnot; [done|].
  apply not_elem_of_cons in Hnot as [Hne Hnot]. simpl.
  rewrite bool_decide_eq_false_2 by done. by apply IH.
Qed.

(** What a call adds to the record of callbacks: nothing, or one
    notification of the listeners as they were before the call. *)
Lemma perform_calls c s :
  exists added,
    calls (perform c s) = calls s ++ added
    /\ forall callback,
         callback ∉ changeListeners s ->
         List.filter (isCallTo callback) added = [].
Proof.
  assert (forall s2,
            calls s2 = calls s -> changeListeners s2 = changeListeners s ->
            exists added,
              calls (notifyChange s2) = calls s ++ added
              /\ forall callback,
                   callback ∉ changeListeners s ->
                   List.filter (isCallTo callback) added = []) as Hnotify.
  { intros s2 Hcalls Hlisteners. exists (notification s2).
    split; [simpl; by rewrite Hcalls|].
    intros callback Hnot. rewrite calls_to_in_notification, Hlisteners.
    by rewrite not_listed. }
  assert (exists added,
            calls s = calls s ++ added
            /\ forall callback,
                 callback ∉ changeListeners s ->
                 List.filter (isCallTo callback) added = []) as Hsame.
  { exists []. by rewrite app_nil_r. }
  destruct c; cbn [perform];
    unfold addElement, subscribe, unsubscribe, removeElement, updateElement,
      setSelectedElement, addToSelection, removeFromSelection, clearSelection,
      clearAll, duplicateElement, moveElementToFront, moveElementToBack,
      addElement;
    repeat match goal with
           | |- context [JsMap.has ?k ?m] => destruct (JsMap.has k m)
           | |- context [JsMap.get ?k ?m] => destruct (JsMap.get k m)
           | |- context [isSelectedId ?k ?t] => destruct (isSelectedId k t)
           end;
    cbn [snd];
    first [exact Hsame | by apply Hnotify].
Qed.

Lemma performAll_calls cs s callback :
  Subscribe callback ∉ cs -> callback ∉ changeListeners s ->
  exists added,
    calls (performAll cs s) = calls s ++ added
    /\ List.filter (isCallTo callback) added = [].
Proof.
  revert s. induction cs as [|c cs IH]; intros s Hcs Hnot.
  - exists []. by rewrite app_nil_r.
  - apply not_elem_of_cons in Hcs as [Hc Hcs].
    destruct (perform_calls c s) as (added1 & Hcalls1 & Hnone1).
    destruct (IH (perform c s) Hcs) as (added2 & Hcalls2 & Hnone2).
    { rewrite changeListeners_perform. destruct c; try done.
      - unfold JsSet.add, JsSet.has. case_bool_decide; [done|].
        rewrite not_elem_of_app, list_elem_of_singleton.
        split; [done|]. intros ->. done.
      - rewrite elem_of_JsSet_delete. tauto. }
    exists (added1 ++ added2).
    replace (performAll (c :: cs) s) with (performAll cs (perform c s))
      by reflexivity.
    rewrite Hcalls2, Hcalls1, <- app_assoc. split; [done|].
    rewrite List.filter_app, Hnone1, Hnone2; done.
Qed.
End ReachableStates.

(** In every reachable state the keys of the element map are distinct: the
    list that models the map is a map. *)
Theorem reachable_elements_keys_distinct :
  forall s : Store.GlobalElementManager,
    Store.reachable s -> NoDup (JsMap.keys (Store.elements s)).
Proof.
  intros s Hreach. induction Hreach as [|c s Hreach IH].
  - apply NoDup_nil_2.
  - by apply perform_keeps_keys_distinct.
Qed.

Lemma reachable_elements_keys_distinct_witness :
  Store.reachable Sample.twoBoxes
  /\ NoDup (JsMap.keys (Store.elements Sample.twoBoxes)).
Proof.
  assert (Store.reachable Sample.twoBoxes) as Hreach.
  { apply (Store.reachable_perform
             (Store.AddElement (Element.textBox "b" 10 10 40 40))).
    apply (Store.reachable_perform
             (Store.AddElement (Element.textBox "a" 0 0 40 40))).
    apply (Store.reachable_perform (Store.Subscribe 7%nat)).
    apply Store.reachable_initial. }
  split; [exact Hreach|].
  exact (reachable_elements_keys_distinct _ Hreach).
Defined.

(** After [unsubscribe] a callback is not called again, whatever calls
    follow, until it is subscribed again. *)
Theorem unsubscribed_callback_is_not_called
    (s : Store.GlobalElementManager) (callback : Store.Callback)
    (cs : list Store.Call)
    (Hnot_resubscribed : Store.Subscribe callback ∉ cs) :
  let s0 := Store.unsubscribe callback s in
  Store.notificationsTo callback s0 (Store.performAll cs s0) = 0%nat.
Proof.
  intros s0.
  destruct (performAll_calls cs s0 callback Hnot_resubscribed)
    as (added & Hcalls & Hnone).
  { unfold s0. simpl. rewrite elem_of_JsSet_delete. tauto. }
  unfold Store.notificationsTo, Store.callsSince.
  by rewrite Hcalls, drop_app_length, Hnone.
Qed.

(** Subscriber 7 of the sample store leaves; two changes follow. *)
Lemma unsubscribed_callback_is_not_called_witness :
  let cs := [Store.AddElement (Element.textBox "c" 5 5 40 40);
             Store.ClearSelection] in
  let s0 := Store.unsubscribe 7%nat Sample.twoBoxes in
  (Store.Subscribe 7%nat ∉ cs)
  /\ Store.notificationsTo 7%nat Sample.twoBoxes
       (Store.performAll cs Sample.twoBoxes) = 2%nat
  /\ Store.notificationsTo 7%nat s0 (Store.performAll cs s0) = 0%nat.
Proof.
  intros cs s0.
  assert (Store.Subscribe 7%nat ∉ cs) as Hcs.
  { unfold cs. rewrite !not_elem_of_cons. repeat split; try discriminate.
    apply not_elem_of_nil. }
  split; [exact Hcs|]. split; [reflexivity|].
  exact (unsubscribed_callback_is_not_called Sample.twoBoxes 7%nat cs Hcs).
Defined.

(** [removeElement] leaves the id in the multi-selection set, and
    [getSelectedElements] passes over it: what it returns are the elements
    stored under the selected ids, in the order of selection. *)
Theorem getSelectedElements_skips_removed :
  forall (s : Store.GlobalElementManager) (elementId : string),
    (forall e,
        e ∈ Store.getSelectedElements s <->
        exists selected,
          selected ∈ Store.selectedElementIds s
          /\ Store.getElement selected s = Some e)
    /\ (forall e,
          e ∈ Store.getSelectedElements (Store.removeElement elementId s) ->
          exists selected,
            selected <> elementId
            /\ selected ∈ Store.selectedElementIds s
            /\ Store.getElement selected s = Some e).
Proof.
  intros s elementId.
  assert (forall t e,
            e ∈ Store.getSelectedElements t <->
            exists selected,
              selected ∈ Store.selectedElementIds t
              /\ Store.getElement selected t = Some e) as Hmem.
  { intros t e. unfold Store.getSelectedElements. apply list_elem_of_omap. }
  split; [apply Hmem|].
  intros e He. apply Hmem in He as (selected & Hin & Hget).
  destruct (removeElement_forgets_only_that_id_aux s elementId)
    as (Hgone & Hother & Hids).
  rewrite Hids in Hin.
  destruct (decide (selected = elementId)) as [->|Hne]; [congruence|].
  exists selected. rewrite Hother in Hget by done. done.
Qed.

(** ** CanvasSyncManager *)

(** A sync update calls nobody while synchronization is off; when it is on
    it calls exactly the registered callbacks other than the source's; a
    canvas that was unregistered is never called. *)
Theorem sync_update_skips_source_and_unregistered :
  forall (m : Sync.CanvasSyncManager) (source : option string)
         (canvas : string) (callback : Sync.Callback),
    (Sync.syncEnabled m = false -> Sync.notifyCanvasUpdate source m = [])
    /\ ((canvas, callback) ∈ Sync.notifyCanvasUpdate source m <->
        Sync.syncEnabled m = true
        /\ (canvas, callback) ∈ Sync.listeners m
        /\ source <> Some canvas)
    /\ (canvas, callback)
       ∉ Sync.notifyCanvasUpdate source (Sync.unregisterCanvas canvas m).
Proof.
  intros m source canvas callback.
  assert (forall m0,
            (canvas, callback) ∈ Sync.notifyCanvasUpdate source m0 <->
            Sync.syncEnabled m0 = true
            /\ (canvas, callback) ∈ Sync.listeners m0
            /\ source <> Some canvas) as Hmem.
  { intros m0. unfold Sync.notifyCanvasUpdate.
    destruct (Sync.syncEnabled m0); simpl.
    - rewrite list_elem_of_In, filter_In, <- list_elem_of_In.
      destruct source as [src|]; simpl.
      + rewrite negb_true_iff, bool_decide_eq_false.
        split; [intros [? ?]|intros (_ & ? & ?)];
          repeat split; try done; congruence.
      + split; [intros [? _]|intros (_ & ? & _)]; done.
    - split; [intros H; by apply elem_of_nil in H|by intros [? _]]. }
  split; [|split; [apply Hmem|]].
  - unfold Sync.notifyCanvasUpdate. by intros ->.
  - rewrite Hmem. intros (_ & Hin & _). simpl in Hin.
    unfold JsMap.delete in Hin.
    apply list_elem_of_In, filter_In in Hin as [_ Hkeep].
    by rewrite bool_decide_eq_true_2 in Hkeep.
Qed.

(** ** Changing the resolution *)

(** [setResolutionForAll] followed by the offset pass it schedules gives
    every viewport that has a grid cell the offset of the cell at the new
    resolution, and gives its data record the new size and that offset. *)
Theorem setResolutionForAll_then_recalculate
    (m : Orchestrator.MultiCanvasManager) (w h : Z) (canvasId : string)
    (canvasManager : Viewport.CanvasManager)
    (canvasData : Orchestrator.CanvasData) (gridPos : Grid.GridPosition)
    (Hviewport : Orchestrator.canvases m !! canvasId = Some canvasManager)
    (Hdata : Orchestrator.canvasDataMap m !! canvasId = Some canvasData)
    (Hcell : Grid.getCanvasPosition canvasId (Orchestrator.gridManager m)
             = Some gridPos) :
  let m' := Orchestrator.recalculateOffsets
              (Orchestrator.setResolutionForAll w h m) in
  Orchestrator.canvases m' !! canvasId
  = Some {| Viewport.offsetX := Grid.col gridPos * w;
            Viewport.offsetY := Grid.row gridPos * h |}
  /\ Orchestrator.canvasDataMap m' !! canvasId
     = Some {| Orchestrator.id := Orchestrator.id canvasData;
               Orchestrator.name := Orchestrator.name canvasData;
               Orchestrator.width := w;
               Orchestrator.height := h;
               Orchestrator.offsetX := Grid.col gridPos * w;
               Orchestrator.offsetY := Grid.row gridPos * h;
               Orchestrator.thumbnail := Orchestrator.thumbnail canvasData |}.
Proof.
  intros m'. subst m'.
  destruct (recalculateOffsets_effect (Orchestrator.setResolutionForAll w h m))
    as (_ & _ & Hcanvases & Hdatas).
  rewrite Hcanvases, Hdatas. simpl.
  rewrite Hviewport, map_lookup_imap, Hdata. simpl. rewrite Hviewport.
  unfold Orchestrator.placedManager, Orchestrator.placedData. simpl.
  by rewrite Hcell.
Qed.

(** The two sample viewports, switched to 1920 x 1080. *)
Lemma setResolutionForAll_then_recalculate_witness :
  let m' := Orchestrator.recalculateOffsets
              (Orchestrator.setResolutionForAll 1920 1080 Sample.sideBySide) in
  Orchestrator.canvases m' !! "canvas-2"
  = Some {| Viewport.offsetX := 1920; Viewport.offsetY := 0 |}
  /\ (Orchestrator.width <$> Orchestrator.canvasDataMap m' !! "canvas-2")
     = Some 1920.
Proof.
  assert (Orchestrator.canvases Sample.sideBySide !! "canvas-2"
          = Some {| Viewport.offsetX := 0; Viewport.offsetY := 0 |})
    as Hviewport by (vm_compute; reflexivity).
  assert (is_Some (Orchestrator.canvasDataMap Sample.sideBySide !! "canvas-2"))
    as [canvasData Hdata] by (vm_compute; eauto).
  assert (Grid.getCanvasPosition "canvas-2"
            (Orchestrator.gridManager Sample.sideBySide)
          = Some {| Grid.row := 0; Grid.col := 1 |}) as Hcell
    by (vm_compute; reflexivity).
  destruct (setResolutionForAll_then_recalculate Sample.sideBySide 1920 1080
              "canvas-2" _ canvasData _ Hviewport Hdata Hcell)
    as [Hplaced Hsized].
  split; [exact Hplaced|]. by rewrite Hsized.
Defined.

(** ** Dragging and cropping *)

Section GestureFacts.
Import Element Gestures.

Lemma getElement_updateElement s elementId updates e :
  Store.getElement elementId s = Some e ->
  Store.getElement elementId (Store.updateElement elementId updates s)
  = Some (objectAssign e updates).
Proof.
  unfold Store.getElement, Store.updateElement. intros ->. simpl.
  apply get_set_eq.
Qed.
End GestureFacts.

(** A drag with cross-viewport linking off moves the element with the
    pointer but keeps at least 50 pixels of it inside the viewport in each
    axis (element and surface together being at least 100 wide and high),
    and dispatches no dragging event; with linking on the element follows
    the pointer unclamped and the event carries the new position. *)
Theorem drag_keeps_element_visible
    (linkingEnabled : bool) (viewport : Viewport.CanvasManager)
    (canvasWidth canvasHeight : Z)
    (startPoint elementStartPoint currentGlobalPoint : Gestures.Point)
    (element : Element.CanvasElement) (s : Store.GlobalElementManager)
    (Hstored : Store.getElement (Element.id element) s = Some element)
    (Hwide : 100 <= Element.width element + canvasWidth)
    (Htall : 100 <= Element.height element + canvasHeight) :
  let result :=
    Gestures.dragSingleElement linkingEnabled viewport canvasWidth canvasHeight
      startPoint elementStartPoint currentGlobalPoint element s in
  let followX := Gestures.px elementStartPoint
                 + (Gestures.px currentGlobalPoint - Gestures.px startPoint) in
  let followY := Gestures.py elementStartPoint
                 + (Gestures.py currentGlobalPoint - Gestures.py startPoint) in
  exists moved,
    Store.getElement (Element.id element) (fst result) = Some moved
    /\ Element.width moved = Element.width element
    /\ Element.height moved = Element.height element
    /\ if linkingEnabled
       then Element.x moved = followX /\ Element.y moved = followY
            /\ snd result = Some (Element.id element, followX, followY)
       else snd result = None
            /\ Gestures.clampedTo
                 (Viewport.offsetX viewport - Element.width element + 50)
                 (Viewport.offsetX viewport + canvasWidth - 50)
                 followX (Element.x moved)
            /\ Gestures.clampedTo
                 (Viewport.offsetY viewport - Element.height element + 50)
                 (Viewport.offsetY viewport + canvasHeight - 50)
                 followY (Element.y moved).
Proof.
  intros result followX followY. subst result followX followY.
  unfold Gestures.dragSingleElement. simpl fst. simpl snd.
  eexists. split; [by apply getElement_updateElement|].
  unfold Gestures.clampedTo.
  destruct linkingEnabled; simpl; repeat split; lia.
Qed.

(** The example of the specification: a box 100 wide in a viewport 800
    wide at offset 0, dragged towards x = -5000, stops at x = -50. *)
Lemma drag_keeps_element_visible_witness :
  let box := Element.textBox "a" 0 0 100 100 in
  let s := Store.addElement box Store.initial in
  let result :=
    Gestures.dragSingleElement false
      {| Viewport.offsetX := 0; Viewport.offsetY := 0 |} 800 600
      {| Gestures.px := 10; Gestures.py := 10 |}
      {| Gestures.px := 0; Gestures.py := 0 |}
      {| Gestures.px := -4990; Gestures.py := 10 |} box s in
  Store.getElement "a" s = Some box
  /\ exists moved,
       Store.getElement "a" (fst result) = Some moved
       /\ Element.x moved = -50 /\ Element.y moved = 0.
Proof.
  intros box s result. split; [reflexivity|].
  destruct (drag_keeps_element_visible false
              {| Viewport.offsetX := 0; Viewport.offsetY := 0 |} 800 600
              {| Gestures.px := 10; Gestures.py := 10 |}
              {| Gestures.px := 0; Gestures.py := 0 |}
              {| Gestures.px := -4990; Gestures.py := 10 |} box s
              eq_refl ltac:(simpl; lia) ltac:(simpl; lia))
    as (moved & Hget & _ & _ & _ & Hx & Hy).
  exists moved. split; [exact Hget|].
  unfold Gestures.clampedTo in Hx, Hy. simpl in Hx, Hy.
  destruct Hx as (_ & _ & Hleft & _). destruct Hy as (_ & Hinside & _).
  split; [apply Hleft; lia|apply Hinside; lia].
Defined.



Example handleCropResize_left_handle_pulled_out :
  let image := Element.croppedImage "i" 0 0 100 100 10 10 50 50 in
  let s := Store.addElement image Store.initial in
  Store.getElement "i"
    (fst (Gestures.handleCropResize {| Gestures.px := -500; Gestures.py := 0 |}
            image {| Gestures.px := 0; Gestures.py := 0 |} "w" s))
  = Some (Element.croppedImage "i" 0 0 100 100 0 10 100 50).
Proof. reflexivity. Qed.



(** ** The single-row offset pass *)

Section SingleRowPass.
Import Orchestrator SingleRow RowLayout.
Implicit Types (entries done rest : list (string * Viewport.CanvasManager)).

Lemma row_manager_eq (m1 m2 : MultiCanvasManager) :
  canvases m1 = canvases m2 -> canvasDataMap m1 = canvasDataMap m2 ->
  totalWidth m1 = totalWidth m2 ->
  currentResolution m1 = currentResolution m2 -> m1 = m2.
Proof. destruct m1, m2; simpl; congruence. Qed.

Lemma keys_placeInRow w offset entries :
  JsMap.keys (placeInRow w offset entries) = JsMap.keys entries.
Proof.
  revert offset. induction entries as [|[k v] entries IH]; intros offset;
    simpl; [done|]. by rewrite IH.
Qed.

Lemma placeInRow_app w offset done rest :
  placeInRow w offset (done ++ rest)
  = placeInRow w offset done ++ placeInRow w (rowEnd w offset done) rest.
Proof.
  revert offset. induction done as [|[k v] done IH]; intros offset; simpl;
    [done|]. by rewrite IH.
Qed.

Lemma rowEnd_app w offset done rest :
  rowEnd w offset (done ++ rest) = rowEnd w (rowEnd w offset done) rest.
Proof.
  revert offset. induction done as [|[k v] done IH]; intros offset; simpl;
    [done|]. by rewrite IH.
Qed.

Lemma offsetInRow_app w offset done rest canvasId :
  offsetInRow w offset (done ++ rest) canvasId
  = match offsetInRow w offset done canvasId with
    | Some found => Some found
    | None => offsetInRow w (rowEnd w offset done) rest canvasId
    end.
Proof.
  revert offset. induction done as [|[k v] done IH]; intros offset; simpl;
    [done|]. destruct (decide (k = canvasId)); [done|]. by rewrite IH.
Qed.

Lemma offsetInRow_None w offset entries canvasId :
  canvasId ∉ JsMap.keys entries -> offsetInRow w offset entries canvasId = None.
Proof.
  revert offset. induction entries as [|[k v] entries IH]; intros offset Hnot;
    simpl; [done|].
  simpl in Hnot. apply not_elem_of_cons in Hnot as [Hne Hnot].
  rewrite decide_False by done. by apply IH.
Qed.

Lemma set_in_the_middle {V} (done rest : list (string * V)) k v v' :
  k ∉ JsMap.keys done ->
  JsMap.set k v' (done ++ (k, v) :: rest) = done ++ (k, v') :: rest.
Proof.
  induction done as [|[k0 v0] done IH]; simpl; intros Hnot.
  - by rewrite decide_True.
  - apply not_elem_of_cons in Hnot as [Hne Hnot].
    rewrite decide_False by done. by rewrite IH.
Qed.

Lemma rowInvariant_fold m rest done state :
  NoDup (JsMap.keys (done ++ rest)) ->
  rowInvariant m done rest state ->
  rowInvariant m (done ++ rest) [] (fold_left recalculateOne rest state).
Proof.
  revert done state. induction rest as [|[k v] rest IH];
    intros done [offset acc] Hnd Hinv.
  - simpl. by rewrite app_nil_r.
  - simpl fold_left.
    replace (done ++ (k, v) :: rest) with ((done ++ [(k, v)]) ++ rest)
      by (by rewrite <- app_assoc).
    assert (k ∉ JsMap.keys done) as Hfresh.
    { unfold JsMap.keys in *. rewrite map_app in Hnd. simpl in Hnd.
      apply NoDup_app in Hnd as (_ & Hdisj & _).
      intros Hin. apply (Hdisj k Hin). apply list_elem_of_here. }
    apply IH; [by rewrite <- app_assoc|].
    destruct Hinv as (Hoffset & Hcanvases & Htotal & Hres & Hdata).
    simpl in Hoffset, Hcanvases, Htotal, Hres, Hdata.
    assert (canvasDataMap acc !! k = canvasDataMap m !! k) as Hk.
    { rewrite Hdata. unfold placedDataInRow.
      by rewrite offsetInRow_None. }
    unfold rowInvariant, recalculateOne. simpl.
    rewrite Hk, Hres, rowEnd_app, placeInRow_app, <- Hoffset. simpl.
    split; [done|]. split.
    { rewrite Hcanvases, set_in_the_middle, <- app_assoc; [done|].
      by rewrite keys_placeInRow. }
    split; [done|]. split; [done|].
    intros canvasId. unfold placedDataInRow.
    rewrite offsetInRow_app, <- Hoffset. simpl.
    destruct (decide (k = canvasId)) as [<-|Hne].
    + rewrite offsetInRow_None by done.
      destruct (canvasDataMap m !! k) as [data|] eqn:E; simpl.
      * by rewrite lookup_insert_eq.
      * by rewrite Hk.
    + assert (canvasDataMap acc !! canvasId
              = placedDataInRow m done canvasId) as Hother by apply Hdata.
      unfold placedDataInRow in Hother.
      destruct (canvasDataMap m !! k) as [data|]; simpl.
      * rewrite lookup_insert_ne by done. rewrite Hother.
        by destruct (offsetInRow (widthOf m) 0 done canvasId).
      * rewrite Hother.
        by destruct (offsetInRow (widthOf m) 0 done canvasId).
Qed.

(** The pass as a whole, on a map with distinct keys. *)
Lemma recalculateOffsets_row m :
  NoDup (JsMap.keys (canvases m)) ->
  canvases (recalculateOffsets m) = placeInRow (widthOf m) 0 (canvases m)
  /\ totalWidth (recalculateOffsets m) = rowEnd (widthOf m) 0 (canvases m)
  /\ currentResolution (recalculateOffsets m) = currentResolution m
  /\ forall canvasId,
       canvasDataMap (recalculateOffsets m) !! canvasId
       = placedDataInRow m (canvases m) canvasId.
Proof.
  intros Hnd.
  pose proof (rowInvariant_fold m (canvases m) [] (0, m)) as H.
  simpl in H. specialize (H Hnd).
  destruct H as (Hoffset & Hcanvases & _ & Hres & Hdata).
  { repeat split; done. }
  unfold recalculateOffsets.
  destruct (fold_left recalculateOne (canvases m) (0, m)) as [offset m'].
  simpl in *. rewrite app_nil_r in Hcanvases. done.
Qed.

Lemma widthOf_placed m canvasId :
  NoDup (JsMap.keys (canvases m)) ->
  widthOf (recalculateOffsets m) canvasId = widthOf m canvasId.
Proof.
  intros Hnd. destruct (recalculateOffsets_row m Hnd) as (_ & _ & Hres & Hdata).
  unfold widthOf. rewrite Hres, Hdata. unfold placedDataInRow.
  destruct (offsetInRow _ _ _ _); [|done].
  by destruct (canvasDataMap m !! canvasId).
Qed.

Lemma placeInRow_twice w w' offset entries :
  (forall canvasId, w' canvasId = w canvasId) ->
  placeInRow w' offset (placeInRow w offset entries)
  = placeInRow w offset entries
  /\ rowEnd w' offset (placeInRow w offset entries) = rowEnd w offset entries
  /\ forall canvasId,
       offsetInRow w' offset (placeInRow w offset entries) canvasId
       = offsetInRow w offset entries canvasId.
Proof.
  intros Hw. revert offset.
  induction entries as [|[k v] entries IH]; intros offset; simpl; [done|].
  rewrite Hw. destruct (IH (offset + w k)) as (-> & -> & Hoff).
  split; [done|]. split; [done|]. intros canvasId.
  destruct (decide (k = canvasId)); [done|]. apply Hoff.
Qed.
End SingleRowPass.

(** The single-row offset pass puts every viewport on the row 0 at the sum
    of the widths of the viewports before it, in the order of the map,
    records the sum of all widths as the total width, writes the same
    horizontal offset into the data records, and changes nothing when it is
    run a second time. *)
Theorem single_row_pass_lays_out_in_order
    (m : SingleRow.MultiCanvasManager)
    (Hmap : NoDup (JsMap.keys (SingleRow.canvases m))) :
  let m' := SingleRow.recalculateOffsets m in
  SingleRow.canvases m'
  = RowLayout.placeInRow (RowLayout.widthOf m) 0 (SingleRow.canvases m)
  /\ SingleRow.totalWidth m'
     = RowLayout.rowEnd (RowLayout.widthOf m) 0 (SingleRow.canvases m)
  /\ (forall canvasId,
        SingleRow.canvasDataMap m' !! canvasId
        = RowLayout.placedDataInRow m (SingleRow.canvases m) canvasId)
  /\ SingleRow.recalculateOffsets m' = m'.
Proof.
  intros m'. subst m'.
  destruct (recalculateOffsets_row m Hmap) as (Hcanvases & Htotal & Hres & Hdata).
  split; [exact Hcanvases|]. split; [exact Htotal|]. split; [exact Hdata|].
  assert (NoDup (JsMap.keys (SingleRow.canvases (SingleRow.recalculateOffsets m))))
    as Hmap' by (by rewrite Hcanvases, keys_placeInRow).
  destruct (recalculateOffsets_row _ Hmap')
    as (Hcanvases2 & Htotal2 & Hres2 & Hdata2).
  destruct (placeInRow_twice (RowLayout.widthOf m)
              (RowLayout.widthOf (SingleRow.recalculateOffsets m)) 0
              (SingleRow.canvases m)) as (Hplace & Hend & Hoff).
  { intros canvasId. by apply widthOf_placed. }
  apply row_manager_eq.
  - by rewrite Hcanvases2, Hcanvases, Hplace.
  - apply map_eq. intros canvasId.
    rewrite Hdata2. unfold RowLayout.placedDataInRow at 1.
    rewrite Hcanvases, Hoff, Hdata. unfold RowLayout.placedDataInRow.
    destruct (RowLayout.offsetInRow (RowLayout.widthOf m) 0
                (SingleRow.canvases m) canvasId); [|done].
    by destruct (SingleRow.canvasDataMap m !! canvasId).
  - by rewrite Htotal2, Hcanvases, Hend, Htotal.
  - by rewrite Hres2, Hres.
Qed.

(** Three viewports of 800: offsets 0, 800 and 1600, total width 2400. *)
Lemma single_row_pass_lays_out_in_order_witness :
  let m' := SingleRow.recalculateOffsets Sample.threeInARow in
  NoDup (JsMap.keys (SingleRow.canvases Sample.threeInARow))
  /\ map (fun entry => Viewport.offsetX (snd entry)) (SingleRow.canvases m')
     = [0; 800; 1600]
  /\ SingleRow.totalWidth m' = 2400
  /\ SingleRow.recalculateOffsets m' = m'.
Proof.
  intros m'.
  assert (NoDup (JsMap.keys (SingleRow.canvases Sample.threeInARow))) as Hmap.
  { simpl. repeat (apply NoDup_cons; split);
      rewrite ?elem_of_cons, ?elem_of_nil; try apply NoDup_nil_2;
      intros H; repeat destruct H as [H|H]; done. }
  destruct (single_row_pass_lays_out_in_order Sample.threeInARow Hmap)
    as (Hcanvases & Htotal & _ & Hidem).
  split; [exact Hmap|]. unfold m'.
  split; [by rewrite Hcanvases|]. split; [by rewrite Htotal|exact Hidem].
Defined.

(** ** Deleting a viewport *)

(** [deleteCanvas] never removes the last viewport: with at most one
    viewport it changes nothing, so a manager that has a viewport keeps
    one. A confirmed deletion among several removes the viewport's
    controller, data record and grid position and leaves the controllers
    and data records of the others alone; a declined one changes nothing. *)
Theorem deleteCanvas_keeps_a_viewport :
  forall (m : Orchestrator.MultiCanvasManager) (canvasId : string)
         (confirmed : bool),
    let m' := Lifecycle.deleteCanvas canvasId confirmed m in
    ((1 <= size (Orchestrator.canvases m))%nat ->
     (1 <= size (Orchestrator.canvases m'))%nat)
    /\ ((size (Orchestrator.canvases m) <= 1)%nat \/ confirmed = false ->
        m' = m)
    /\ ((1 < size (Orchestrator.canvases m))%nat -> confirmed = true ->
        Orchestrator.canvases m' !! canvasId = None
        /\ Orchestrator.canvasDataMap m' !! canvasId = None
        /\ Grid.getCanvasPosition canvasId (Orchestrator.gridManager m') = None
        /\ forall other, other <> canvasId ->
             Orchestrator.canvases m' !! other = Orchestrator.canvases m !! other
             /\ Orchestrator.canvasDataMap m' !! other
                = Orchestrator.canvasDataMap m !! other).
Proof.
  intros m canvasId confirmed m'. subst m'. unfold Lifecycle.deleteCanvas.
  destruct (Nat.leb_spec (size (Orchestrator.canvases m)) 1) as [Hle|Hgt].
  - split; [done|]. split; [done|]. lia.
  - destruct confirmed; simpl.
    + split.
      { intros _. pose proof (map_size_delete canvasId (Orchestrator.canvases m))
          as Hsize.
        destruct (Orchestrator.canvases m !! canvasId); simpl in Hsize;
          unfold id in *; lia. }
      split; [intros [?|?]; [lia|done]|].
      intros _ _. split; [apply lookup_delete_eq|].
      split; [apply lookup_delete_eq|]. split.
      * unfold Grid.getCanvasPosition, Grid.removeCanvas.
        destruct (Grid.canvasPositions (Orchestrator.gridManager m) !! canvasId)
          eqn:E; [|done].
        simpl. apply lookup_delete_eq.
      * intros other Hne. by rewrite !lookup_delete_ne.
    + split; [done|]. split; [done|]. done.
Qed.

(** ** What counts as selected *)

(** [isSelected] answers for both selection fields: an id is selected once
    it is added to the multi-selection or made the primary selection, no id
    is selected after [clearSelection], taking an id out of the
    multi-selection leaves it selected exactly when it is the primary
    selection, and [clearAll], which empties the store, leaves the ids of
    the multi-selection selected although no element is stored. *)
Theorem isSelected_follows_both_fields :
  forall (s : Store.GlobalElementManager) (elementId : string),
    Store.isSelected elementId (Store.addToSelection elementId s) = true
    /\ Store.isSelected elementId
         (Store.setSelectedElement (Some elementId) s) = true
    /\ Store.isSelected elementId (Store.clearSelection s) = false
    /\ Store.isSelected elementId (Store.removeFromSelection elementId s)
       = Store.isSelectedId elementId s
    /\ Store.isSelected elementId (Store.clearAll s)
       = JsSet.has elementId (Store.selectedElementIds s)
    /\ Store.getAllElements (Store.clearAll s) = []
    /\ Store.getSelectedElements (Store.clearAll s) = [].
Proof.
  intros s elementId. unfold Store.isSelected, Store.isSelectedId.
  split.
  { simpl. unfold JsSet.has at 1. rewrite bool_decide_eq_true_2; [done|].
    apply elem_of_JsSet_add. by left. }
  split.
  { simpl. rewrite bool_decide_eq_true_2 by done. apply orb_true_r. }
  split.
  { reflexivity. }
  split.
  { simpl. unfold JsSet.has at 1. rewrite bool_decide_eq_false_2; [done|].
    rewrite elem_of_JsSet_delete. tauto. }
  split.
  { simpl. apply orb_false_r. }
  split; [done|].
  unfold Store.getSelectedElements. simpl.
  induction (Store.selectedElementIds s) as [|k ks IH]; [done|].
  simpl. exact IH.
Qed.

(** ** Switching synchronization *)

(** [toggleSync] flips the flag, returns the new value and calls every
    registered callback, also when it switches synchronization off; the
    registrations are kept and a second toggle restores the manager. After
    it, an update without a source calls every registered callback if
    synchronization is now on and nobody if it is off. *)
Theorem toggleSync_flips_and_calls_all :
  forall m : Sync.CanvasSyncManager,
    let result := Sync.toggleSync m in
    let enabled := fst (fst result) in
    let m' := snd (fst result) in
    enabled = negb (Sync.isSyncEnabled m)
    /\ Sync.isSyncEnabled m' = enabled
    /\ Sync.listeners m' = Sync.listeners m
    /\ snd result = Sync.listeners m
    /\ snd (fst (Sync.toggleSync m')) = m
    /\ Sync.notifyCanvasUpdate None m'
       = (if enabled then Sync.listeners m else []).
Proof.
  intros [enabled listeners]. simpl.
  split; [done|]. split; [done|]. split; [done|]. split; [done|].
  split; [by rewrite negb_involutive|].
  unfold Sync.notifyCanvasUpdate. simpl. rewrite negb_involutive.
  destruct enabled; simpl; [done|].
  induction listeners as [|[canvasId callback] rest IH]; [done|].
  simpl. by rewrite IH.
Qed.

(** ** The change listeners of a reachable store *)

(** Subscribing callback 7 twice registers it once. *)
Lemma reachable_changeListeners_set_witness :
  let s := Store.subscribe 7%nat (Store.subscribe 7%nat Store.initial) in
  Store.reachable s
  /\ Store.changeListeners s = [7%nat]
  /\ NoDup (Store.changeListeners s).
Proof.
  assert (Store.reachable
            (Store.subscribe 7%nat (Store.subscribe 7%nat Store.initial)))
    as Hreach.
  { apply (Store.reachable_perform (Store.Subscribe 7%nat)).
    apply (Store.reachable_perform (Store.Subscribe 7%nat)).
    apply Store.reachable_initial. }
  split; [exact Hreach|]. split; [reflexivity|].
  exact (reachable_changeListeners_set _ Hreach).
Defined.

(** ** Removing a viewport: what happens to the links of the others *)

Section GeneratedIds.
Import Grid CanvasIds.

Lemma of_uint_acc_bounds d acc :
  Z.pos acc * 10 ^ Z.of_nat (Decimal.nb_digits d)
  <= Z.pos (Pos.of_uint_acc d acc)
  < (Z.pos acc + 1) * 10 ^ Z.of_nat (Decimal.nb_digits d).
Proof.
  revert acc. induction d as [|d IH|d IH|d IH|d IH|d IH|d IH|d IH|d IH|d IH|d IH];
    intros acc; cbn [Pos.of_uint_acc Decimal.nb_digits];
    [rewrite Z.pow_0_r; lia|..];
    rewrite Nat2Z.inj_succ, Z.pow_succ_r by lia;
    match goal with
    | |- context [Pos.of_uint_acc d ?a] => specialize (IH a)
    end;
    assert (0 < 10 ^ Z.of_nat (Decimal.nb_digits d))
      by (apply Z.pow_pos_nonneg; lia);
    nia.
Qed.

Lemma to_uint_leading_digit p :
  exists acc d,
    (1 <= Z.pos acc <= 9)
    /\ Z.pos p = Z.pos (Pos.of_uint_acc d acc)
    /\ Decimal.nb_digits (Pos.to_uint p) = S (Decimal.nb_digits d).
Proof.
  pose proof (Unsigned.of_to p) as Hof.
  pose proof (Unsigned.to_of (Pos.to_uint p)) as Hnorm.
  rewrite Hof in Hnorm. change (N.to_uint (N.pos p)) with (Pos.to_uint p) in Hnorm.
  pose proof (Unsigned.to_uint_nonzero p) as Hnz.
  destruct (Pos.to_uint p) as [|d|d|d|d|d|d|d|d|d|d] eqn:E;
    cbn [Pos.of_uint] in Hof.
  - discriminate.
  - exfalso. unfold Decimal.unorm in Hnorm. cbn [Decimal.nzhead] in Hnorm.
    destruct (Decimal.nzhead d) eqn:Ehead; try discriminate.
    + injection Hnorm as Hd. subst d. by apply Hnz.
    + exact (DecimalFacts.nzhead_nonzero _ _ Ehead).
  - injection Hof as Hof. eexists _, d. split; [|split; [by rewrite <- Hof|done]]. lia.
  - injection Hof as Hof. eexists _, d. split; [|split; [by rewrite <- Hof|done]]. lia.
  - injection Hof as Hof. eexists _, d. split; [|split; [by rewrite <- Hof|done]]. lia.
  - injection Hof as Hof. eexists _, d. split; [|split; [by rewrite <- Hof|done]]. lia.
  - injection Hof as Hof. eexists _, d. split; [|split; [by rewrite <- Hof|done]]. lia.
  - injection Hof as Hof. eexists _, d. split; [|split; [by rewrite <- Hof|done]]. lia.
  - injection Hof as Hof. eexists _, d. split; [|split; [by rewrite <- Hof|done]]. lia.
  - injection Hof as Hof. eexists _, d. split; [|split; [by rewrite <- Hof|done]]. lia.
  - injection Hof as Hof. eexists _, d. split; [|split; [by rewrite <- Hof|done]]. lia.
Qed.

(** A clock value prints as thirteen digits. *)
Lemma clockValue_nb_digits p :
  clockValue (Z.pos p) -> Decimal.nb_digits (Pos.to_uint p) = 13%nat.
Proof.
  unfold clockValue. intros Hclock.
  destruct (to_uint_leading_digit p) as (acc & d & Hacc & Hp & ->).
  pose proof (of_uint_acc_bounds d acc) as Hbounds. rewrite <- Hp in Hbounds.
  set (n := Decimal.nb_digits d) in *.
  assert (0 < 10 ^ Z.of_nat n) as Hpos by (apply Z.pow_pos_nonneg; lia).
  f_equal. destruct (Nat.lt_trichotomy n 12) as [Hlt|[Heq|Hgt]]; [|done|]; exfalso.
  - assert (10 ^ Z.of_nat n <= 10 ^ 11) as Hle
      by (apply Z.pow_le_mono_r; lia).
    change (10 ^ 11) with 100000000000 in Hle. nia.
  - assert (10 ^ 13 <= 10 ^ Z.of_nat n) as Hle
      by (apply Z.pow_le_mono_r; lia).
    change (10 ^ 13) with 10000000000000 in Hle. nia.
Qed.

Lemma string_of_uint_length d :
  String.length (NilEmpty.string_of_uint d) = Decimal.nb_digits d.
Proof. induction d; simpl; congruence. Qed.

Lemma string_of_uint_digitsOnly d :
  digitsOnly (NilEmpty.string_of_uint d) = true.
Proof. induction d; simpl; done. Qed.

(** A clock value prints as thirteen decimal digits. *)
Lemma numberToString_clockValue now :
  clockValue now ->
  digitsOnly (Js.numberToString now) = true
  /\ String.length (Js.numberToString now) = 13%nat.
Proof.
  intros Hclock. destruct now as [|p|p]; try (unfold clockValue in Hclock; lia).
  unfold Js.numberToString. cbn [Z.to_int NilZero.string_of_int].
  pose proof (clockValue_nb_digits p Hclock) as Hdigits.
  unfold NilZero.string_of_uint.
  destruct (Pos.to_uint p) eqn:E; try discriminate;
    rewrite <- E; rewrite <- E in Hdigits;
    (split; [apply string_of_uint_digitsOnly|by rewrite string_of_uint_length]).
Qed.

Lemma prefix_same_length s t rest :
  String.length s = String.length t ->
  String.prefix s (t ++ rest)%string = true -> s = t.
Proof.
  revert t. induction s as [|c s IH]; intros [|c' t] Hlen; try discriminate.
  - done.
  - change (String c' t ++ rest)%string with (String c' (t ++ rest)%string).
    simpl. destruct (ascii_dec c c') as [->|]; [|discriminate].
    intros Hprefix. f_equal. apply IH; [by injection Hlen|done].
Qed.

Lemma prefix_of_same_length s t :
  String.length s = String.length t -> String.prefix s t = true -> s = t.
Proof.
  revert t. induction s as [|c s IH]; intros [|c' t] Hlen; try discriminate.
  - done.
  - simpl. destruct (ascii_dec c c') as [->|]; [|discriminate].
    intros Hprefix. f_equal. apply IH; [by injection Hlen|done].
Qed.

Lemma prefix_cons_same c w s :
  String.prefix (String c w) (String c s) = String.prefix w s.
Proof. simpl. by destruct (ascii_dec c c). Qed.

Lemma includes_cons_same c w s :
  Js.includes (String c s) (String c w)
  = String.prefix w s || Js.includes s (String c w).
Proof. cbn [Js.includes]. by rewrite prefix_cons_same. Qed.

Lemma includes_cons_other c c' w s :
  c <> c' ->
  Js.includes (String c' s) (String c w) = Js.includes s (String c w).
Proof.
  intros Hne. cbn [Js.includes String.prefix].
  by destruct (ascii_dec c c').
Qed.

(** A text that starts with the letter c does not start inside a run of
    digits. *)
Lemma includes_skip_digits d rest w :
  digitsOnly d = true ->
  Js.includes (d ++ rest)%string (String "c" w)
  = Js.includes rest (String "c" w).
Proof.
  induction d as [|ch d IH]; intros Hdigits; [done|].
  change (String ch d ++ rest)%string with (String ch (d ++ rest)%string).
  simpl in Hdigits. apply andb_true_iff in Hdigits as [Hch Hdigits].
  cbn [Js.includes String.prefix].
  destruct (ascii_dec "c" ch) as [<-|_]; [by vm_compute in Hch|].
  rewrite IH by done. done.
Qed.

Lemma includes_digits d w :
  digitsOnly d = true -> Js.includes d (String "c" w) = false.
Proof.
  induction d as [|ch d IH]; intros Hdigits; [done|].
  simpl in Hdigits. apply andb_true_iff in Hdigits as [Hch Hdigits].
  cbn [Js.includes String.prefix].
  destruct (ascii_dec "c" ch) as [<-|_]; [by vm_compute in Hch|].
  by rewrite IH.
Qed.

(** Where the id of a viewport occurs in the key of a pair of viewports:
    at one of the two ids. *)
Lemma includes_pair_key dx dy dv :
  digitsOnly dx = true -> digitsOnly dy = true ->
  String.length dv = String.length dx -> String.length dv = String.length dy ->
  Js.includes (("canvas-" ++ dx) ++ "-" ++ ("canvas-" ++ dy))%string
              ("canvas-" ++ dv)%string = true ->
  dv = dx \/ dv = dy.
Proof.
  intros Hdx Hdy Hlenx Hleny.
  change (("canvas-" ++ dx) ++ "-" ++ ("canvas-" ++ dy))%string
    with (String "c" (String "a" (String "n" (String "v" (String "a"
            (String "s" (String "-"
               (dx ++ String "-" (String "c" (String "a" (String "n"
                  (String "v" (String "a" (String "s" (String "-"
                     dy)))))))))))))))%string.
  change ("canvas-" ++ dv)%string
    with (String "c" (String "a" (String "n" (String "v" (String "a"
            (String "s" (String "-" dv))))))).
  rewrite includes_cons_same, !prefix_cons_same.
  rewrite !includes_cons_other by discriminate.
  rewrite includes_skip_digits by done.
  rewrite includes_cons_other by discriminate.
  rewrite includes_cons_same, !prefix_cons_same.
  rewrite !includes_cons_other by discriminate.
  rewrite includes_digits by done.
  rewrite orb_false_r. intros [Hprefix|Hprefix]%orb_true_iff.
  - left. exact (prefix_same_length _ _ _ Hlenx Hprefix).
  - right. by apply prefix_of_same_length.
Qed.

(** The key of a pair of generated ids contains a generated id only when
    it is one of the two. *)
Lemma generated_key_includes a b v :
  generatedId a -> generatedId b -> generatedId v ->
  Js.includes (getLinkKey a b) v = true -> v = a \/ v = b.
Proof.
  intros (ta & Hta & ->) (tb & Htb & ->) (tv & Htv & ->).
  destruct (numberToString_clockValue ta Hta) as [Hda Hla].
  destruct (numberToString_clockValue tb Htb) as [Hdb Hlb].
  destruct (numberToString_clockValue tv Htv) as [_ Hlv].
  unfold newCanvasId, getLinkKey, Js.sort, Js.join. simpl.
  destruct (String.ltb _ _); simpl; intros Hin.
  - destruct (includes_pair_key _ _ (Js.numberToString tv) Hdb Hda
                ltac:(congruence) ltac:(congruence) Hin) as [->| ->];
      [by right|by left].
  - destruct (includes_pair_key _ _ (Js.numberToString tv) Hda Hdb
                ltac:(congruence) ltac:(congruence) Hin) as [->| ->];
      [by left|by right].
Qed.
End GeneratedIds.

(** C7. On the ids the orchestrator makes, [removeCanvas] of a placed
    viewport deletes its grid position and its cell and every link entry of
    a pair it belongs to, and nothing else: the position of every other
    viewport and the recorded link state of every pair of viewports both
    distinct from it are unchanged. *)
Theorem removeCanvas_keeps_unrelated_links
    (g : Grid.CanvasGridManager) (v : string) (position : Grid.GridPosition)
    (Hgenerated : CanvasIds.generatedId v)
    (Hplaced : Grid.getCanvasPosition v g = Some position) :
  let g' := Grid.removeCanvas v g in
  Grid.getCanvasPosition v g' = None
  /\ Grid.getCanvasAt (Grid.row position) (Grid.col position) g' = None
  /\ (forall other, other <> v ->
        Grid.getCanvasPosition other g' = Grid.getCanvasPosition other g)
  /\ (forall other,
        Grid.linkStates g' !! Grid.getLinkKey v other = None
        /\ Grid.linkStates g' !! Grid.getLinkKey other v = None)
  /\ (forall a b,
        CanvasIds.generatedId a -> CanvasIds.generatedId b ->
        a <> v -> b <> v ->
        Grid.linkStates g' !! Grid.getLinkKey a b
        = Grid.linkStates g !! Grid.getLinkKey a b
        /\ Grid.areCanvasesLinked a b g' = Grid.areCanvasesLinked a b g).
Proof.
  intros g'. subst g'.
  destruct (removeCanvas_effect v position g Hplaced)
    as (Hposition & Hcell & Hlinks).
  split; [exact Hposition|]. split; [exact Hcell|]. split.
  { intros other Hother. unfold Grid.getCanvasPosition, Grid.removeCanvas.
    unfold Grid.getCanvasPosition in Hplaced. rewrite Hplaced. simpl.
    by rewrite lookup_delete_ne. }
  split.
  { intros other. rewrite !Hlinks.
    destruct (getLinkKey_includes v other) as [-> _].
    by destruct (getLinkKey_includes other v) as [_ ->]. }
  intros a b Ha Hb Hav Hbv.
  assert (Js.includes (Grid.getLinkKey a b) v = false) as Hout.
  { destruct (Js.includes (Grid.getLinkKey a b) v) eqn:Hin; [|done].
    destruct (generated_key_includes a b v Ha Hb Hgenerated Hin); congruence. }
  assert (Grid.linkStates (Grid.removeCanvas v g) !! Grid.getLinkKey a b
          = Grid.linkStates g !! Grid.getLinkKey a b) as Hsame
    by (by rewrite Hlinks, Hout).
  split; [exact Hsame|].
  unfold Grid.areCanvasesLinked, Grid.linkStateOrFalse. by rewrite Hsame.
Qed.

(** Three viewports created one millisecond apart and placed in a row: the
    middle one is linked to both neighbours; removing the first deletes its
    link and keeps the link of the other two. *)
Lemma removeCanvas_keeps_unrelated_links_witness :
  let first := CanvasIds.newCanvasId 1700000000000 in
  let second := CanvasIds.newCanvasId 1700000000001 in
  let third := CanvasIds.newCanvasId 1700000000002 in
  let g := CanvasIds.threeCreated in
  CanvasIds.generatedId first
  /\ Grid.getCanvasPosition first g = Some {| Grid.row := 5; Grid.col := 4 |}
  /\ Grid.areCanvasesLinked first second g = true
  /\ Grid.areCanvasesLinked second third g = true
  /\ Grid.areCanvasesLinked first second (Grid.removeCanvas first g) = false
  /\ Grid.areCanvasesLinked second third (Grid.removeCanvas first g) = true.
Proof.
  assert (forall now, CanvasIds.clockValue now ->
            CanvasIds.generatedId (CanvasIds.newCanvasId now)) as Hmade
    by (intros now Hnow; by exists now).
  assert (CanvasIds.clockValue 1700000000000) as H0
    by (unfold CanvasIds.clockValue; lia).
  assert (CanvasIds.clockValue 1700000000001) as H1
    by (unfold CanvasIds.clockValue; lia).
  assert (CanvasIds.clockValue 1700000000002) as H2
    by (unfold CanvasIds.clockValue; lia).
  pose proof (removeCanvas_keeps_unrelated_links CanvasIds.threeCreated
                (CanvasIds.newCanvasId 1700000000000)
                {| Grid.row := 5; Grid.col := 4 |}
                (Hmade _ H0) eq_refl) as (_ & _ & _ & Hgone & Hkept).
  split; [exact (Hmade _ H0)|]. split; [reflexivity|].
  split; [vm_compute; reflexivity|]. split; [vm_compute; reflexivity|].
  split.
  - unfold Grid.areCanvasesLinked, Grid.linkStateOrFalse.
    by rewrite (proj1 (Hgone (CanvasIds.newCanvasId 1700000000001))).
  - assert (CanvasIds.newCanvasId 1700000000001
            <> CanvasIds.newCanvasId 1700000000000) as Hsecond
      by (intros Heq; vm_compute in Heq; discriminate).
    assert (CanvasIds.newCanvasId 1700000000002
            <> CanvasIds.newCanvasId 1700000000000) as Hthird
      by (intros Heq; vm_compute in Heq; discriminate).
    rewrite (proj2 (Hkept _ _ (Hmade _ H1) (Hmade _ H2) Hsecond Hthird)).
    vm_compute; reflexivity.
Defined.
